(** * gobuild: a shallow embedding of the compilation orchestrator

    The Go package [gobuild] drives an external compiler ([go], [tinygo])
    and delivers the binary either as a file (temp artifact, then rename)
    or as bytes captured from the compiler's standard output.  This file
    embeds the package in Rocq and proves properties of it.

    Conventions.
    - Go [string] is [string]; [[]byte] is [list byte]; [[]string] is
      [list string]; [int], [int64] and [time.Duration] are [Z].
    - A Go pointer is a location [loc]; the structs it points to live in
      finite maps of the machine state, so that aliasing is visible.
    - A Go [error] is a value of [error]; [nil] is [None].
    - A nil pointer dereference (a panic) is [None] in the option monad. *)

From Stdlib Require Import ZArith Ascii String.
From Stdlib.Strings Require Import Byte.
From stdpp Require Import base option list gmap strings pretty.

Local Open Scope Z_scope.

(* [set_solver] clears hypotheses that may be gone already *)
Set Warnings "-clear-no-such-hyp".

(** ** Go standard library: [strings] *)

Module strings.

(** [strings.HasPrefix(s, prefix)] *)
Definition HasPrefix (s pre : string) : bool := String.prefix pre s.

(** [strings.Contains(s, substr)] *)
Fixpoint Contains (s substr : string) : bool :=
  String.prefix substr s ||
  match s with
  | EmptyString => false
  | String _ s' => Contains s' substr
  end.

(** [strings.Join(elems, sep)] *)
Definition Join (elems : list string) (sep : string) : string :=
  String.concat sep elems.

End strings.

(** ** Go standard library: [path]

    [path.Clean] is embedded at the level of path components: the
    byte-level loop of the library skips empty and [.] components, pops the
    last kept component on [..] (unless nothing poppable is left, in which
    case a rooted path drops the [..] and a relative path keeps it), and
    separates what is kept by single slashes. *)

Module path.

(** [path.IsAbs(p)]: [len(p) > 0 && p[0] == '/'] *)
Definition IsAbs (p : string) : bool :=
  match p with
  | String c _ => if decide (c = "/"%char) then true else false
  | EmptyString => false
  end.

(** the components of [p] between slashes *)
Fixpoint components (p : string) : list string :=
  match p with
  | EmptyString => [EmptyString]
  | String c p' =>
      if decide (c = "/"%char) then EmptyString :: components p'
      else match components p' with
           | h :: t => String c h :: t
           | [] => [String c EmptyString]
           end
  end.

(** the main loop of [Clean]; [out] is the kept components, last first *)
Fixpoint clean_loop (rooted : bool) (cs out : list string) : list string :=
  match cs with
  | [] => out
  | c :: cs' =>
      if decide (c = "" ∨ c = ".") then clean_loop rooted cs' out
      else if decide (c = "..") then
        match out with
        | top :: out' =>
            if decide (top = "..")
            then clean_loop rooted cs' (if rooted then out else c :: out)
            else clean_loop rooted cs' out'
        | [] => clean_loop rooted cs' (if rooted then out else [c])
        end
      else clean_loop rooted cs' (c :: out)
  end.

(** [path.Clean(p)] *)
Definition Clean (p : string) : string :=
  if decide (p = "") then "."
  else
    let rooted := IsAbs p in
    let out := rev (clean_loop rooted (components p) []) in
    if rooted then "/" +:+ String.concat "/" out
    else match out with
         | [] => "."
         | _ => String.concat "/" out
         end.

(** [path.Join(elem...)]: the non-empty elements joined by slashes, then
    cleaned; the empty string when every element is empty. *)
Definition Join (elem : list string) : string :=
  match filter (λ e, e ≠ "") elem with
  | [] => ""
  | es => Clean (String.concat "/" es)
  end.

End path.

(** ** Errors

    The concrete error values the package creates or passes on. *)

Inductive error : Type :=
  | errorString (s : string)
      (** [errors.New(s)], and [fmt.Errorf] without [%w] *)
  | wrapError (msg : string) (err : error)
      (** [fmt.Errorf] with one [%w] verb: the formatted text and the
          wrapped error *)
  | DeadlineExceeded
      (** [context.DeadlineExceeded] *)
  | Canceled
      (** [context.Canceled] *)
  | LinkError (op old new : string) (err : string)
      (** [*os.LinkError], as returned by [os.Rename] *)
  | execError (msg : string)
      (** any other error handed up by [os/exec] ([*exec.ExitError],
          [*exec.Error], ...), with its text *).

(** the [Error()] method *)
Definition Error (e : error) : string :=
  match e with
  | errorString s => s
  | wrapError msg _ => msg
  | DeadlineExceeded => "context deadline exceeded"
  | Canceled => "context canceled"
  | LinkError op old new err => op +:+ " " +:+ old +:+ " " +:+ new +:+ ": " +:+ err
  | execError msg => msg
  end.

Global Instance error_eq_dec : EqDecision error.
Proof. solve_decision. Defined.

(** ** Configuration (config.go) *)

Definition loc := nat.
Definition Duration := Z.

(** [time.Second], in nanoseconds *)
Definition Second : Duration := 1000000000.

(** a value passed to the variadic logger, [message ...any] *)
Inductive any : Type :=
  | anyString (s : string)
  | anyInt (n : Z).

Record Config : Type := mkConfig {
  AppRootDir : string;
  Command : string;
  MainInputFileRelativePath : string;
  OutName : string;
  Extension : string;
  (** [func() []string]: [None] is the nil func, [Some l] a func
      returning [l] *)
  CompilingArguments : option (list string);
  OutFolderRelativePath : string;
  (** [func(message ...any)]: [None] is nil, [Some f] the identity of the
      caller's sink *)
  Logger : option loc;
  (** [CompileCallback]: [None] is nil, [Some f] the identity of the
      caller's callback *)
  Callback : option loc;
  Timeout : Duration;
  Env : list string
}.

(** ** The argument builder (compiler.go, [buildArguments])

    [c] is the struct behind [h.config]. *)

(** The loop over [args].  [i++] inside the body skips the value token of
    a bare [-X]; the recursion on the remaining tokens does the same. *)
Fixpoint buildArguments_loop (args buildArgs ldFlags : list string)
  : list string * list string :=
  match args with
  | [] => (buildArgs, ldFlags)
  | arg :: rest =>
      if strings.HasPrefix arg "-X" then
        match rest with
        | value :: rest' =>
            if decide (arg = "-X") then
              buildArguments_loop rest' buildArgs (ldFlags ++ [arg; value])
            else if strings.Contains arg "=" then
              buildArguments_loop rest buildArgs (ldFlags ++ [arg])
            else
              buildArguments_loop rest buildArgs (ldFlags ++ [arg])
        | [] =>
            if strings.Contains arg "=" then
              buildArguments_loop rest buildArgs (ldFlags ++ [arg])
            else
              buildArguments_loop rest buildArgs (ldFlags ++ [arg])
        end
      else buildArguments_loop rest (buildArgs ++ [arg]) ldFlags
  end.

Definition buildArguments (c : Config) (tempFileName : string) : list string :=
  let '(buildArgs, ldFlags) :=
    match CompilingArguments c with
    | Some args => buildArguments_loop args ["build"] []
    | None => (["build"], [])
    end in
  let buildArgs :=
    if decide (0 < length ldFlags)%nat
    then buildArgs ++ ["-ldflags=" +:+ strings.Join ldFlags " "]
    else buildArgs in
  let outputPath :=
    if path.IsAbs tempFileName || strings.HasPrefix tempFileName "/dev/"
    then tempFileName
    else path.Join [OutFolderRelativePath c; tempFileName] in
  buildArgs ++ ["-o"; outputPath; MainInputFileRelativePath c].

(** a flag that starts with the linker-define prefix [-X] *)
Definition is_link_flag (a : string) : Prop := strings.HasPrefix a "-X" = true.

Global Instance is_link_flag_dec a : Decision (is_link_flag a).
Proof. unfold is_link_flag. apply _. Defined.

(** the extra flags of a configuration; a nil provider gives none *)
Definition extraFlags (c : Config) : list string :=
  default [] (CompilingArguments c).

(** [c] with another extra-flags provider *)
Definition withCompilingArguments (c : Config) (f : option (list string)) : Config :=
  {| AppRootDir := AppRootDir c; Command := Command c;
     MainInputFileRelativePath := MainInputFileRelativePath c;
     OutName := OutName c; Extension := Extension c;
     CompilingArguments := f;
     OutFolderRelativePath := OutFolderRelativePath c;
     Logger := Logger c; Callback := Callback c;
     Timeout := Timeout c; Env := Env c |}.

(** ** The binary size formatter (binarySizer.go) *)

(** the integer nearest to [num / den], ties to even ([0 < den]) *)
Definition round_half_even (num den : Z) : Z :=
  let q := num / den in
  let r := num mod den in
  if 2 * r <? den then q
  else if den <? 2 * r then q + 1
  else if Z.even q then q else q + 1.

(** [float64(n)] for an [int] [n ≥ 0]: the value of the nearest float64
    (53 bits of significand, ties to even).  It is again an integer. *)
Definition float64_of_int (n : Z) : Z :=
  if n <? 2 ^ 53 then n
  else let e := Z.log2 n - 52 in round_half_even n (2 ^ e) * 2 ^ e.

(** [fmt.Sprintf("%.1f", x)] for the float64 [x = num / den ≥ 0], where
    [num] is an integer-valued float64 and [den] a power of two, so that
    the quotient is exact: [%.1f] prints the decimal nearest to the exact
    value with one digit after the point, ties to even. *)
Definition Sprintf_1f (num den : Z) : string :=
  let t := round_half_even (10 * num) den in
  pretty (t / 10) +:+ "." +:+ pretty (t mod 10).

(** the thresholds *)
Definition KB : Z := 1024.
Definition MB : Z := 1024 * 1024.
Definition GB : Z := 1024 * 1024 * 1024.

(** the [log] field: the no-op literal of [NewBinarySizer], or a sink *)
Inductive logFunc : Type :=
  | logNoop
  | logSink (f : loc).

Section BinarySizer.

(** what the accessor reads when it is called *)
Context {Σ : Type}.

(** [getBinary] is a [func() []byte]: [None] is the nil func; a call
    may panic ([None]) or return bytes *)
Record BinarySizer : Type := mkBinarySizer {
  getBinary : option (Σ → option (list byte));
  log : logFunc
}.

Definition NewBinarySizer (getBinary : option (Σ → option (list byte)))
  : BinarySizer :=
  {| getBinary := getBinary; log := logNoop |}.

Definition SetLog (b : BinarySizer) (f : option loc) : BinarySizer :=
  match f with
  | Some f => {| getBinary := getBinary b; log := logSink f |}
  | None => b
  end.

(** [BinarySize], from [len(bytes)] on *)
Definition sizeString (len : Z) : string :=
  if decide (len = 0) then "0.0 KB"
  else
    let size := float64_of_int len in
    if decide (GB ≤ size) then Sprintf_1f size GB +:+ " GB"
    else if decide (MB ≤ size) then Sprintf_1f size MB +:+ " MB"
    else Sprintf_1f size KB +:+ " KB".

Definition BinarySize (b : BinarySizer) (σ : Σ) : option string :=
  match getBinary b with
  | None => Some "0.0 KB"
  | Some f =>
      bytes ← f σ;
      Some (sizeString (Z.of_nat (length bytes)))
  end.

End BinarySizer.

Arguments BinarySizer : clear implicits.

(** ** Go standard library: [os/exec]

    A command as [exec.CommandContext] and the field assignments of the
    caller leave it.  [Args] are the arguments after the command name.
    [Env] is [None] for a nil slice, in which case the child inherits the
    environment of the calling process. *)

Module exec.

Record Cmd : Type := mkCmd {
  Path : string;
  Args : list string;
  Dir : string;
  Env : option (list string)
}.

(** the environment the child process gets *)
Definition environ (osEnviron : list string) (c : Cmd) : list string :=
  default osEnviron (Env c).

End exec.

(** What running a command to completion under its context gives back:
    the error of [Run] / [CombinedOutput], the bytes the child wrote to its
    standard output and standard error, the two streams as one buffer
    receives them, the value of [ctx.Err()] once the call has returned, the
    files the child left behind and the time that went by. *)
Record Outcome : Type := mkOutcome {
  out_err : option error;
  out_stdout : list byte;
  out_stderr : list byte;
  out_combined : list byte;
  out_ctxErr : option error;
  out_files : gmap string (list byte);
  out_elapsed : Z
}.

(** ** The machine state

    [compilation] (gobuild.go).  The [cancel] func of a compilation
    cancels the context created with it; the state keeps the set of
    compilations whose [cancel] has been called.  The [done] channel is
    never sent to or received from and is left out. *)
Record compilation : Type := mkCompilation {
  cmd : option exec.Cmd;
  tempFile : string;
  startTime : Z;
  memoryBytes : list byte
}.

(** what the package does to the outside, in order *)
Inductive event : Type :=
  | Launched (c : exec.Cmd) (timeout : Duration)
      (** a child process was started under a context with this timeout *)
  | Logged (f : loc) (message : list any)
      (** the logger [f] was called *)
  | CalledBack (f : loc) (err : option error)
      (** the completion callback [f] was called *).

Record State : Type := mkState {
  configs : gmap loc Config;          (** the [Config] structs, by pointer *)
  comps : gmap loc compilation;       (** the [compilation] structs, by pointer *)
  cancelled : gset loc;               (** compilations whose [cancel] was called *)
  files : gmap string (list byte);    (** the file system *)
  clock : Z;                          (** [time.Now().UnixNano()] *)
  trace : list event
}.

Definition set_configs (f : gmap loc Config → gmap loc Config) (σ : State) : State :=
  {| configs := f (configs σ); comps := comps σ; cancelled := cancelled σ;
     files := files σ; clock := clock σ; trace := trace σ |}.
Definition set_comps (f : gmap loc compilation → gmap loc compilation) (σ : State) : State :=
  {| configs := configs σ; comps := f (comps σ); cancelled := cancelled σ;
     files := files σ; clock := clock σ; trace := trace σ |}.
Definition set_cancelled (f : gset loc → gset loc) (σ : State) : State :=
  {| configs := configs σ; comps := comps σ; cancelled := f (cancelled σ);
     files := files σ; clock := clock σ; trace := trace σ |}.
Definition set_files (f : gmap string (list byte) → gmap string (list byte)) (σ : State) : State :=
  {| configs := configs σ; comps := comps σ; cancelled := cancelled σ;
     files := f (files σ); clock := clock σ; trace := trace σ |}.
Definition set_clock (f : Z → Z) (σ : State) : State :=
  {| configs := configs σ; comps := comps σ; cancelled := cancelled σ;
     files := files σ; clock := f (clock σ); trace := trace σ |}.
Definition emit (e : event) (σ : State) : State :=
  {| configs := configs σ; comps := comps σ; cancelled := cancelled σ;
     files := files σ; clock := clock σ; trace := trace σ ++ [e] |}.

(** [GoBuild] (gobuild.go): the fields of the struct behind the receiver
    [h].  The mutex is not a field here: what runs between [Lock] and
    [Unlock] is one function below, and one atomic step of the interleaving
    semantics.  The accessor of [binarySizer] is always the method value
    [h.getBinaryBytes]; only its [log] is stored. *)
Record GoBuild : Type := mkGoBuild {
  config : loc;
  active : option loc;
  outFileName : string;
  outTempFileName : string;
  binarySizerLog : logFunc
}.

Definition set_active (a : option loc) (h : GoBuild) : GoBuild :=
  {| config := config h; active := a; outFileName := outFileName h;
     outTempFileName := outTempFileName h; binarySizerLog := binarySizerLog h |}.

(** [c] with another timeout *)
Definition withTimeout (c : Config) (t : Duration) : Config :=
  {| AppRootDir := AppRootDir c; Command := Command c;
     MainInputFileRelativePath := MainInputFileRelativePath c;
     OutName := OutName c; Extension := Extension c;
     CompilingArguments := CompilingArguments c;
     OutFolderRelativePath := OutFolderRelativePath c;
     Logger := Logger c; Callback := Callback c;
     Timeout := t; Env := Env c |}.

(** ** The constructor (gobuild.go, [New])

    [c] is the pointer the caller passes; the default timeout is stored
    through it. *)
Definition New (c : loc) (σ : State) : option (GoBuild * State) :=
  cfg ← configs σ !! c;
  let σ :=
    if decide (Timeout cfg = 0)
    then set_configs <[c := withTimeout cfg (5 * Second)]> σ
    else σ in
  cfg ← configs σ !! c;
  let h := {| config := c;
              active := None;
              outFileName := OutName cfg +:+ Extension cfg;
              outTempFileName := OutName cfg +:+ "_temp" +:+ Extension cfg;
              binarySizerLog := log (SetLog (Σ := unit) (NewBinarySizer None)
                                            (Logger cfg)) |} in
  Some (h, σ).

(** ** Bookkeeping of the active job

    The three sections that run with [h.mu] held. *)

(** [if h.active != nil { h.active.cancel(); h.active = nil }] *)
Definition cancelActive (h : GoBuild) (σ : State) : GoBuild * State :=
  match active h with
  | Some old => (set_active None h, set_cancelled (λ s, {[old]} ∪ s) σ)
  | None => (h, σ)
  end.

(** [comp := &compilation{...}; h.active = comp]: a new pointer *)
Definition installJob (tempFileName : string) (h : GoBuild) (σ : State)
  : loc * GoBuild * State :=
  let comp := fresh (dom (comps σ)) in
  let c := {| cmd := None; tempFile := tempFileName;
              startTime := clock σ; memoryBytes := [] |} in
  (comp, set_active (Some comp) h, set_comps <[comp := c]> σ).

(** [if h.active == comp { h.active = nil }] *)
Definition clearJob (comp : loc) (h : GoBuild) : GoBuild :=
  if decide (active h = Some comp) then set_active None h else h.

(** [Cancel] (gobuild.go) *)
Definition Cancel (h : GoBuild) (σ : State) : option error * GoBuild * State :=
  match active h with
  | Some old =>
      (None, set_active None h, set_cancelled (λ s, {[old]} ∪ s) σ)
  | None => (None, h, σ)
  end.

(** [IsCompiling] (gobuild.go) *)
Definition IsCompiling (h : GoBuild) : bool :=
  bool_decide (active h ≠ None).

(** [FinalOutputPath] (gobuild.go) *)
Definition FinalOutputPath (h : GoBuild) (σ : State) : option string :=
  cfg ← configs σ !! config h;
  Some (path.Join [OutFolderRelativePath cfg; outFileName h]).

(** [os.ReadFile], the error dropped: nil when the file cannot be read *)
Definition ReadFile (name : string) (σ : State) : list byte :=
  default [] (files σ !! name).

(** [getBinaryBytes] (gobuild.go) *)
Definition getBinaryBytes (h : GoBuild) (σ : State) : option (list byte) :=
  let fromDisk :=
    name ← FinalOutputPath h σ;
    Some (ReadFile name σ) in
  match active h with
  | Some a =>
      comp ← comps σ !! a;
      if decide (0 < length (memoryBytes comp))%nat
      then Some (memoryBytes comp)
      else fromDisk
  | None => fromDisk
  end.

(** the [binarySizer] field: [NewBinarySizer(h.getBinaryBytes)], with the
    log given in [New] *)
Definition binarySizer (h : GoBuild) : BinarySizer (GoBuild * State) :=
  {| getBinary := Some (λ hσ, getBinaryBytes hσ.1 hσ.2);
     log := binarySizerLog h |}.

(** [GoBuild.BinarySize] (gobuild.go); the accessor reads the struct
    behind [h] as it is at the time of the call *)
Definition GoBuild_BinarySize (h : GoBuild) (σ : State) : option string :=
  BinarySize (binarySizer h) (h, σ).

(** ** File operations

    The two helpers [compileSync] calls are not in the sources at hand. *)

(** where the temp artifact of a disk compilation is: the destination the
    compiler is given for the name [tempFileName] *)
Definition tempPath (cfg : Config) (tempFileName : string) : string :=
  path.Join [OutFolderRelativePath cfg; tempFileName].

(** Modelled from the spec: [cleanupTempFile], of which only the call is in
    the sources.  "Delete the temp artifact if it exists." *)
Definition cleanupTempFile (cfg : Config) (tempFileName : string) (σ : State)
  : State :=
  set_files (delete (tempPath cfg tempFileName)) σ.

(** Modelled from the spec: [renameOutputFile], of which only the calls are
    in the sources.  "Atomically rename the temp artifact to the final output
    path (directory + base name + extension).  Failure to rename is reported
    as a distinct error."  The rename is [os.Rename]: it fails, with a
    [*os.LinkError], when the temp artifact does not exist, and otherwise
    moves its contents over the final path in one step. *)
Definition renameOutputFile (h : GoBuild) (cfg : Config) (tempFileName : string)
    (σ : State) : option error * State :=
  let old := tempPath cfg tempFileName in
  let new := path.Join [OutFolderRelativePath cfg; outFileName h] in
  match files σ !! old with
  | Some contents => (None, set_files (λ fs, <[new := contents]> (delete old fs)) σ)
  | None => (Some (LinkError "rename" old new "no such file or directory"), σ)
  end.

(** ** The two compilations *)

Section orchestrator.

(** [os.Environ()] *)
Variable Environ : list string.

(** [%v] of a [time.Duration] *)
Variable Duration_String : Duration → string.

(** the external world: what happens when a command is run to completion
    under a context with the given timeout, from the given files *)
Variable run : exec.Cmd → Duration → gmap string (list byte) → Outcome.

(** starting the child and waiting for it *)
Definition launch (c : exec.Cmd) (timeout : Duration) (σ : State)
  : Outcome * State :=
  let r := run c timeout (files σ) in
  (r, set_clock (λ t, t + out_elapsed r)
        (set_files (λ _, out_files r) (emit (Launched c timeout) σ))).

(** [compileSync] (compiler.go).  [timeout] is the timeout of [ctx]. *)
Definition compileSync (h : GoBuild) (timeout : Duration) (comp : loc)
    (σ : State) : option (option error * State) :=
  cfg ← configs σ !! config h;
  job ← comps σ !! comp;
  let e := errorString "compileSync" in
  let buildArgs := buildArguments cfg (tempFile job) in
  let c := {| exec.Path := Command cfg;
              exec.Args := buildArgs;
              exec.Dir := OutFolderRelativePath cfg;
              exec.Env := if decide (0 < length (Env cfg))%nat
                          then Some (Environ ++ Env cfg) else None |} in
  let σ := set_comps <[comp := {| cmd := Some c; tempFile := tempFile job;
                                  startTime := startTime job;
                                  memoryBytes := memoryBytes job |}]> σ in
  let '(r, σ) := launch c timeout σ in
  let output := out_combined r in
  match out_err r with
  | Some err =>
      let errMsg := Error e +:+ " build failed: " +:+ Error err in
      let errMsg :=
        if decide (0 < length output)%nat
        then errMsg +:+ " " +:+ string_of_list_byte output
        else errMsg in
      let σ := cleanupTempFile cfg (tempFile job) σ in
      Some (Some (errorString errMsg), σ)
  | None => Some (renameOutputFile h cfg (tempFile job) σ)
  end.

(** [CompileProgram] (gobuild.go), up to the first [Unlock]: the new job
    and the timeout of its context *)
Definition CompileProgram_begin (h : GoBuild) (σ : State)
  : option (loc * Duration * GoBuild * State) :=
  cfg ← configs σ !! config h;
  let '(h, σ) := cancelActive h σ in
  let timeout := Timeout cfg in
  let tempFileName :=
    OutName cfg +:+ "_temp_" +:+ pretty (clock σ) +:+ Extension cfg in
  let '(comp, h, σ) := installJob tempFileName h σ in
  Some (comp, timeout, h, σ).

(** the goroutine [CompileProgram] starts when a callback is configured *)
Definition CompileProgram_goroutine (timeout : Duration) (comp : loc)
    (h : GoBuild) (σ : State) : option (GoBuild * State) :=
  '(err, σ) ← compileSync h timeout comp σ;
  cfg ← configs σ !! config h;
  cb ← Callback cfg;
  let σ := emit (CalledBack cb err) σ in
  Some (clearJob comp h, σ).

(** [CompileProgram] (gobuild.go).  With a callback the call returns nil
    at once and hands back the goroutine it started: the job and the
    timeout of its context, to be run by [CompileProgram_goroutine]. *)
Definition CompileProgram (h : GoBuild) (σ : State)
  : option (option error * option (loc * Duration) * GoBuild * State) :=
  '(comp, timeout, h, σ) ← CompileProgram_begin h σ;
  cfg ← configs σ !! config h;
  match Callback cfg with
  | Some _ => Some (None, Some (comp, timeout), h, σ)
  | None =>
      '(err, σ) ← compileSync h timeout comp σ;
      Some (err, None, clearJob comp h, σ)
  end.

(** [CompileToMemory] (memory.go), up to the first [Unlock] *)
Definition CompileToMemory_begin (h : GoBuild) (σ : State)
  : option (loc * Duration * GoBuild * State) :=
  cfg ← configs σ !! config h;
  let '(h, σ) := cancelActive h σ in
  let timeout := Timeout cfg in
  let '(comp, h, σ) := installJob "memory" h σ in
  Some (comp, timeout, h, σ).

(** the command of [CompileToMemory]: [exec.CommandContext] and the
    assignments to [cmd.Dir] and [cmd.Env] *)
Definition memoryCmd (cfg : Config) : exec.Cmd :=
  let outputDest := "/dev/stdout" in
  let args := buildArguments cfg outputDest in
  {| exec.Path := Command cfg;
     exec.Args := args;
     exec.Dir := AppRootDir cfg;
     exec.Env := Some Environ |}.

(** [CompileToMemory], from the first [Unlock] to [cmd.Run()] *)
Definition CompileToMemory_run (timeout : Duration) (h : GoBuild) (σ : State)
  : option (Outcome * State) :=
  cfg ← configs σ !! config h;
  let c := memoryCmd cfg in
  let σ := match Logger cfg with
           | Some f => emit (Logged f [anyString "Compiling to memory..."]) σ
           | None => σ
           end in
  Some (launch c timeout σ).

(** [CompileToMemory], after the last [Unlock] *)
Definition CompileToMemory_result (r : Outcome) (h : GoBuild) (σ : State)
  : option (list byte * option error * State) :=
  cfg ← configs σ !! config h;
  if decide (out_ctxErr r = Some DeadlineExceeded) then
    Some ([], Some (errorString ("compilation timed out after "
                                 +:+ Duration_String (Timeout cfg))), σ)
  else
    match out_err r with
    | Some err =>
        Some ([], Some (wrapError
                          ("compilation failed: " +:+ Error err
                           +:+ String "010" "Output: "
                           +:+ string_of_list_byte (out_stderr r)) err), σ)
    | None =>
        let σ := match Logger cfg with
                 | Some f =>
                     emit (Logged f [anyString "Compilation to memory success. Size:";
                                     anyInt (Z.of_nat (length (out_stdout r)));
                                     anyString "bytes"]) σ
                 | None => σ
                 end in
        Some (out_stdout r, None, σ)
    end.

(** [CompileToMemory] (memory.go) *)
Definition CompileToMemory (h : GoBuild) (σ : State)
  : option (list byte * option error * GoBuild * State) :=
  '(comp, timeout, h, σ) ← CompileToMemory_begin h σ;
  '(r, σ) ← CompileToMemory_run timeout h σ;
  let h := clearJob comp h in
  '(bytes, err, σ) ← CompileToMemory_result r h σ;
  Some (bytes, err, h, σ).

(** *** Interleavings

    Calls on one builder from several goroutines interleave.  What a
    call does while it holds [h.mu] is one step; so is what it does to the
    state between two such sections. *)
Inductive action : Type :=
  | ActProgramBegin
      (** [CompileProgram], up to the first [Unlock] *)
  | ActCompileSync (timeout : Duration) (comp : loc)
      (** [compileSync] of the job [comp], on the caller's goroutine or
          on the one of the callback *)
  | ActCallback (comp : loc) (err : option error)
      (** the callback is told the result of the job [comp] *)
  | ActMemoryBegin
      (** [CompileToMemory], up to the first [Unlock] *)
  | ActMemoryRun (timeout : Duration)
      (** [CompileToMemory], from there to the end of [cmd.Run()] *)
  | ActEnd (comp : loc)
      (** the job [comp] takes the lock the last time, in
          [CompileProgram], in its goroutine or in [CompileToMemory] *)
  | ActMemoryResult (r : Outcome)
      (** [CompileToMemory], after the last [Unlock], with the outcome of
          its run *)
  | ActCancel
      (** a call of [Cancel] *)
  | ActIsCompiling
      (** a call of [IsCompiling] *).

Definition step (a : action) (s : GoBuild * State) : option (GoBuild * State) :=
  let '(h, σ) := s in
  match a with
  | ActProgramBegin =>
      '(_, _, h, σ) ← CompileProgram_begin h σ; Some (h, σ)
  | ActCompileSync timeout comp =>
      '(_, σ) ← compileSync h timeout comp σ; Some (h, σ)
  | ActCallback comp err =>
      cfg ← configs σ !! config h;
      cb ← Callback cfg;
      Some (h, emit (CalledBack cb err) σ)
  | ActMemoryBegin =>
      '(_, _, h, σ) ← CompileToMemory_begin h σ; Some (h, σ)
  | ActMemoryRun timeout =>
      '(_, σ) ← CompileToMemory_run timeout h σ; Some (h, σ)
  | ActEnd comp => Some (clearJob comp h, σ)
  | ActMemoryResult r =>
      '(_, _, σ) ← CompileToMemory_result r h σ; Some (h, σ)
  | ActCancel => let '(_, h, σ) := Cancel h σ in Some (h, σ)
  | ActIsCompiling => let _ := IsCompiling h in Some (h, σ)
  end.

Fixpoint execute (acts : list action) (s : GoBuild * State)
  : option (GoBuild * State) :=
  match acts with
  | [] => Some s
  | a :: acts => s ← step a s; execute acts s
  end.

End orchestrator.

(** ** The single active job

    [D] is the set of jobs that were there before the builder was made and
    [E] the actions taken since.  The job the builder references, if any,
    is one of its own and its [cancel] has not been called; each other job
    of the builder has had its [cancel] called or has taken its last
    step.  The last three parts say that the pointers are well formed. *)
Definition single_active (D : gset loc) (E : list action)
    (s : GoBuild * State) : Prop :=
  (∀ j, active s.1 = Some j →
        j ∈ dom (comps s.2) ∧ (j ∉ D) ∧ (j ∉ cancelled s.2))
  ∧ (∀ k, k ∈ dom (comps s.2) → k ∉ D → active s.1 ≠ Some k →
          k ∈ cancelled s.2 ∨ ActEnd k ∈ E)
  ∧ cancelled s.2 ⊆ dom (comps s.2)
  ∧ D ⊆ dom (comps s.2)
  ∧ is_Some (configs s.2 !! config s.1).

(** ** Kinds of error

    The package tells its errors apart by their text only. *)

(** the timeout error of [CompileToMemory] *)
Definition timeout_kind (e : error) : bool :=
  String.prefix "compilation timed out after " (Error e).

(** the build failures of [compileSync] and of [CompileToMemory] *)
Definition build_failure_kind (e : error) : bool :=
  String.prefix "compileSync build failed: " (Error e)
  || String.prefix "compilation failed: " (Error e).


(** ** Sample inputs *)

Module Sample.

(** a configuration without timeout, with two environment overrides *)
Definition cfg : Config :=
  {| AppRootDir := "/project"; Command := "go";
     MainInputFileRelativePath := "main.go";
     OutName := "testapp"; Extension := "";
     CompilingArguments := None;
     OutFolderRelativePath := "/project/out";
     Logger := None; Callback := None;
     Timeout := 0; Env := ["GOOS=js"; "GOARCH=wasm"] |}.


(** a machine holding [c] at pointer 0, with no file and no job *)
Definition machine (c : Config) : State :=
  {| configs := {[ 0%nat := c ]}; comps := ∅; cancelled := ∅;
     files := ∅; clock := 1700000000000000000; trace := [] |}.

Definition Environ : list string := ["PATH=/usr/bin"; "HOME=/root"].

(** a rendering of durations: whole seconds *)
Definition Duration_String (d : Duration) : string :=
  pretty (d / Second) +:+ "s".

(** the destination given after [-o] *)
Fixpoint destination (args : list string) : option string :=
  match args with
  | a :: rest =>
      if decide (a = "-o") then head rest else destination rest
  | [] => None
  end.

Definition elf : list byte := [x7f; x45; x4c; x46].

(** a compiler that succeeds: it writes the binary to its destination,
    which for [/dev/stdout] is its standard output *)
Definition compiler_ok (c : exec.Cmd) (timeout : Duration)
    (fs : gmap string (list byte)) : Outcome :=
  let dest := default "" (destination (exec.Args c)) in
  if decide (dest = "/dev/stdout") then
    {| out_err := None; out_stdout := elf; out_stderr := [];
       out_combined := elf; out_ctxErr := None; out_files := fs;
       out_elapsed := 1000 |}
  else
    {| out_err := None; out_stdout := []; out_stderr := [];
       out_combined := []; out_ctxErr := None;
       out_files := <[dest := elf]> fs; out_elapsed := 1000 |}.



(** a compiler that rejects the program *)
Definition compiler_rejects (c : exec.Cmd) (timeout : Duration)
    (fs : gmap string (list byte)) : Outcome :=
  {| out_err := Some (execError "exit status 1");
     out_stdout := []; out_stderr := list_byte_of_string "syntax error";
     out_combined := list_byte_of_string "syntax error";
     out_ctxErr := None; out_files := fs; out_elapsed := 1000 |}.

(** the builder made from [cfg], in the middle of a disk compilation *)
Definition builder : GoBuild :=
  {| config := 0%nat; active := Some 0%nat; outFileName := "testapp";
     outTempFileName := "testapp_temp"; binarySizerLog := logNoop |}.

Definition job : compilation :=
  {| cmd := None; tempFile := "testapp_temp_1700000000000000000";
     startTime := 1700000000000000000; memoryBytes := [] |}.

Definition machine_with_job (c : Config) : State :=
  {| configs := {[ 0%nat := c ]}; comps := {[ 0%nat := job ]}; cancelled := ∅;
     files := ∅; clock := 1700000000000000000; trace := [] |}.

End Sample.

(** ** The remaining accessors (gobuild.go) *)

(** [BuildArguments]: the arguments for the default temp file name *)
Definition BuildArguments (h : GoBuild) (σ : State) : option (list string) :=
  cfg ← configs σ !! config h;
  Some (buildArguments cfg (outTempFileName h)).

(** [MainOutputFileNameWithExtension] *)
Definition MainOutputFileNameWithExtension (h : GoBuild) : string :=
  outFileName h.

(** [GoBuild.MainInputFileRelativePath] *)
Definition GoBuild_MainInputFileRelativePath (h : GoBuild) (σ : State)
  : option string :=
  cfg ← configs σ !! config h;
  Some (MainInputFileRelativePath cfg).

(** ** Jobs without bytes

    [D] is the set of jobs that were there before the builder was made.
    The job the builder references, if any, is not one of those, and no job
    made since holds bytes in [memoryBytes]. *)
Definition disk_only (D : gset loc) (s : GoBuild * State) : Prop :=
  (∀ j, active s.1 = Some j → j ∈ dom (comps s.2) ∧ (j ∉ D))
  ∧ D ⊆ dom (comps s.2)
  ∧ (∀ k c, comps s.2 !! k = Some c → k ∉ D → memoryBytes c = []).

(** ** Further sample inputs *)

Module SampleAsync.

(** the sample configuration with a completion callback and a logger *)
Definition cfg : Config :=
  {| AppRootDir := "/project"; Command := "go";
     MainInputFileRelativePath := "main.go";
     OutName := "testapp"; Extension := ".wasm";
     CompilingArguments := Some ["-tags=dev"];
     OutFolderRelativePath := "/project/out";
     Logger := Some 3%nat; Callback := Some 7%nat;
     Timeout := 2000000000; Env := [] |}.

(** a compiler that succeeds although the deadline of its context has
    passed by the time it returns *)
Definition compiler_late (c : exec.Cmd) (timeout : Duration)
    (fs : gmap string (list byte)) : Outcome :=
  {| out_err := None; out_stdout := Sample.elf; out_stderr := [];
     out_combined := []; out_ctxErr := Some DeadlineExceeded;
     out_files := fs; out_elapsed := timeout |}.

End SampleAsync.

(* ================================================================== *)
(** * Properties *)
(* ================================================================== *)

(** ** Strings *)

Lemma string_app_nil_l (s : string) : "" +:+ s = s.
Proof. reflexivity. Qed.

Lemma string_app_cons (x : ascii) (a b : string) :
  String x a +:+ b = String x (a +:+ b).
Proof. reflexivity. Qed.

Lemma string_app_nil_r (s : string) : s +:+ "" = s.
Proof.
  induction s as [|x s IH]; [done|]. by rewrite string_app_cons, IH.
Qed.

Lemma string_app_assoc (a b c : string) : (a +:+ b) +:+ c = a +:+ (b +:+ c).
Proof.
  induction a as [|x a IH]; [done|].
  by rewrite !string_app_cons, IH.
Qed.

Lemma prefix_cons (a b : ascii) (s1 s2 : string) :
  String.prefix (String a s1) (String b s2)
  = if Ascii.ascii_dec a b then String.prefix s1 s2 else false.
Proof. reflexivity. Qed.

Lemma prefix_app (p s : string) : String.prefix p (p +:+ s) = true.
Proof.
  induction p as [|x p IH]; [by destruct s|].
  rewrite string_app_cons, prefix_cons. by destruct (Ascii.ascii_dec x x).
Qed.

Example path_Join_examples :
  path.Join ["build"; "app_tmp"] = "build/app_tmp" ∧
  path.Join [""; "app_temp"] = "app_temp" ∧
  path.Join ["web/public/"; "../x"] = "web/x" ∧
  path.Join ["/abs"; "a//b/./c"] = "/abs/a/b/c" ∧
  path.Join ["a"; "../../b"] = "../b" ∧
  path.Join [""; ""] = "" ∧
  path.Clean "/.." = "/".
Proof. vm_compute. repeat split. Qed.

(** ** The argument builder *)

Section buildArguments_facts.


(** A standard-stream pseudo-path is an absolute path. *)
Lemma dev_prefix_IsAbs (dest : string) :
  strings.HasPrefix dest "/dev/" = true → path.IsAbs dest = true.
Proof.
  unfold strings.HasPrefix. destruct dest as [|c dest]; [done|].
  rewrite prefix_cons.
  destruct (Ascii.ascii_dec "/" c) as [<-|]; [|done].
  intros _. done.
Qed.

(** The destination test of [buildArguments] is the absolute-path test. *)
Lemma output_path_test (dest : string) :
  path.IsAbs dest || strings.HasPrefix dest "/dev/" = path.IsAbs dest.
Proof.
  destruct (path.IsAbs dest) eqn:Habs; [done|]. simpl.
  destruct (strings.HasPrefix dest "/dev/") eqn:Hdev; [|done].
  apply dev_prefix_IsAbs in Hdev. congruence.
Qed.

End buildArguments_facts.


(** C6.  For every destination token the argument list ends with [-o],
    the resolved destination and the entry source file, the tokens before
    them not depending on the destination.  The resolved destination is the
    token itself when it is an absolute path, in particular for every path
    under [/dev/] such as [/dev/stdout], and otherwise the token joined with
    the configured output directory. *)
Theorem buildArguments_destination (c : Config) :
  ∃ flags : list string,
    (∀ dest,
        buildArguments c dest
        = flags ++ ["-o";
                    if path.IsAbs dest then dest
                    else path.Join [OutFolderRelativePath c; dest];
                    MainInputFileRelativePath c])
    ∧ (∀ name,
        buildArguments c ("/dev/" +:+ name)
        = flags ++ ["-o"; "/dev/" +:+ name; MainInputFileRelativePath c])
    ∧ buildArguments c "/dev/stdout"
      = flags ++ ["-o"; "/dev/stdout"; MainInputFileRelativePath c]
    ∧ buildArguments c "app_tmp"
      = flags ++ ["-o"; path.Join [OutFolderRelativePath c; "app_tmp"];
                  MainInputFileRelativePath c].
Proof.
  unfold buildArguments.
  destruct (match CompilingArguments c with
            | Some args => buildArguments_loop args ["build"] []
            | None => (["build"], [])
            end) as [b l].
  eexists. split; [|split; [|split]].
  - intros dest. rewrite output_path_test. reflexivity.
  - intros name. reflexivity.
  - reflexivity.
  - reflexivity.
Qed.


(** ** The binary size formatter *)

(** the expectations of binarySize_test.go *)
Example sizeString_tests :
  sizeString 100 = "0.1 KB" ∧ sizeString 500 = "0.5 KB"
  ∧ sizeString 512 = "0.5 KB" ∧ sizeString 1000 = "1.0 KB"
  ∧ sizeString 1024 = "1.0 KB" ∧ sizeString (10 * 1024 + 410) = "10.4 KB"
  ∧ sizeString (999 * 1024) = "999.0 KB"
  ∧ sizeString (2 * 1024 * 1024 + 307 * 1024) = "2.3 MB"
  ∧ sizeString (999 * 1024 * 1024) = "999.0 MB"
  ∧ sizeString (1024 * 1024 * 1024) = "1.0 GB"
  ∧ sizeString 1610612736 = "1.5 GB"
  ∧ sizeString (1024 * 1024 - 1) = "1024.0 KB"
  ∧ sizeString (1024 * 1024 + 1) = "1.0 MB"
  ∧ sizeString (1024 * 1024 * 1024 - 1) = "1024.0 MB"
  ∧ sizeString (1024 * 1024 * 1024 + 1) = "1.0 GB"
  ∧ sizeString 102 = "0.1 KB" ∧ sizeString 1126 = "1.1 KB"
  ∧ sizeString 1536 = "1.5 KB" ∧ sizeString 1946 = "1.9 KB".
Proof. vm_compute. repeat split. Qed.

Section sizeString_facts.

Lemma round_half_even_near (num den : Z) :
  0 < den → 2 * Z.abs (num - round_half_even num den * den) ≤ den.
Proof.
  intros Hden. unfold round_half_even.
  pose proof (Z.div_mod num den ltac:(lia)) as Hdm.
  pose proof (Z.mod_pos_bound num den Hden) as Hr.
  set (q := num / den) in *. set (r := num mod den) in *.
  destruct (2 * r <? den) eqn:H1; [apply Z.ltb_lt in H1; lia|].
  apply Z.ltb_ge in H1.
  destruct (den <? 2 * r) eqn:H2; [apply Z.ltb_lt in H2; lia|].
  apply Z.ltb_ge in H2.
  destruct (Z.even q); lia.
Qed.

Lemma round_half_even_lower (num den : Z) :
  0 < den → num / den ≤ round_half_even num den.
Proof.
  intros Hden. unfold round_half_even.
  repeat match goal with |- context [if ?b then _ else _] => destruct b end;
    lia.
Qed.

Lemma float64_of_int_cases (n : Z) :
  0 ≤ n →
  (n < 2 ^ 53 ∧ float64_of_int n = n)
  ∨ (2 ^ 53 ≤ n ∧ 2 ^ 53 ≤ float64_of_int n).
Proof.
  intros Hn. unfold float64_of_int.
  destruct (n <? 2 ^ 53) eqn:Hlt.
  - apply Z.ltb_lt in Hlt. by left.
  - apply Z.ltb_ge in Hlt. right. split; [done|].
    assert (Hlog : 53 ≤ Z.log2 n).
    { change 53 with (Z.log2 (2 ^ 53)). by apply Z.log2_le_mono. }
    set (e := Z.log2 n - 52).
    assert (He : 1 ≤ e) by (unfold e; lia).
    assert (Hpow : 0 < 2 ^ e) by (apply Z.pow_pos_nonneg; lia).
    assert (Hq : 2 ^ 52 ≤ n / 2 ^ e).
    { apply Z.div_le_lower_bound; [done|].
      rewrite Z.mul_comm, <- Z.pow_add_r by lia.
      replace (52 + e) with (Z.log2 n) by (unfold e; lia).
      apply Z.log2_spec. lia. }
    pose proof (round_half_even_lower n (2 ^ e) Hpow) as Hr.
    assert (H2e : 2 ≤ 2 ^ e).
    { change 2 with (2 ^ 1) at 1. apply Z.pow_le_mono_r; lia. }
    change (2 ^ 53) with (2 ^ 52 * 2). nia.
Qed.

(** one decimal digit prints as one character among [0] .. [9] *)
Lemma pretty_digit (d : Z) :
  0 ≤ d < 10 →
  pretty d = String (Ascii.ascii_of_nat (48 + Z.to_nat d)) "".
Proof.
  intros Hd.
  assert (Hcases : d = 0 ∨ d = 1 ∨ d = 2 ∨ d = 3 ∨ d = 4 ∨ d = 5 ∨ d = 6
                   ∨ d = 7 ∨ d = 8 ∨ d = 9) by lia.
  repeat (destruct Hcases as [-> | Hcases]; [reflexivity|]).
  by subst.
Qed.

End sizeString_facts.

(** C8.  For every byte count [n] the formatter returns
    [<magnitude>.<one decimal digit> <UNIT>]: the magnitude is a decimal
    numeral, the digit one character among [0] .. [9], and UNIT is [GB] from
    [1024^3] bytes on, [MB] from [1024^2] bytes on and [KB] below (the
    largest unit in which the size is at least one, with [KB] as the floor);
    the number printed is the size in that unit rounded to the nearest
    tenth.  [1024*1024 - 1] bytes print in [KB] and [1024*1024] bytes print
    as [1.0 MB].  The result is [0.0 KB] when the accessor is nil, when it
    returns nil and when it returns an empty slice. *)
Theorem BinarySize_format :
  (∀ n : nat,
      ∃ (name : string) (unit t : Z),
        sizeString (Z.of_nat n)
        = pretty (t / 10) +:+ "."
          +:+ String (Ascii.ascii_of_nat (48 + Z.to_nat (t mod 10))) ""
          +:+ " " +:+ name
        ∧ 0 ≤ t ∧ 0 ≤ t mod 10 < 10
        ∧ ((name = "KB" ∧ unit = KB ∧ Z.of_nat n < MB)
           ∨ (name = "MB" ∧ unit = MB ∧ MB ≤ Z.of_nat n < GB)
           ∨ (name = "GB" ∧ unit = GB ∧ GB ≤ Z.of_nat n))
        ∧ 2 * Z.abs (10 * float64_of_int (Z.of_nat n) - t * unit) ≤ unit
        ∧ (2 ^ 53 ≤ Z.of_nat n ∨ float64_of_int (Z.of_nat n) = Z.of_nat n))
  ∧ sizeString (1024 * 1024 - 1) = "1024.0 KB"
  ∧ sizeString (1024 * 1024) = "1.0 MB"
  ∧ (∀ Σ (l : logFunc) (σ : Σ),
        BinarySize {| getBinary := None; log := l |} σ = Some "0.0 KB")
  ∧ (∀ Σ (l : logFunc) (σ : Σ),
        BinarySize {| getBinary := Some (λ _, Some []); log := l |} σ
        = Some "0.0 KB")
  ∧ (∀ Σ (l : logFunc) (σ : Σ) (bytes : list byte),
        BinarySize {| getBinary := Some (λ _, Some bytes); log := l |} σ
        = Some (sizeString (Z.of_nat (length bytes)))).
Proof.
  split; [|by repeat split].
  intros n. set (z := Z.of_nat n). assert (Hz : 0 ≤ z) by lia.
  clearbody z. clear n. unfold sizeString.
  destruct (decide (z = 0)) as [-> | Hnz].
  { exists "KB", KB, 0. vm_compute. repeat split; try done; [by left | by right]. }
  pose proof (float64_of_int_cases z Hz) as Hf.
  set (size := float64_of_int z) in *.
  assert (Hform : ∀ unit, 0 < unit →
            let t := round_half_even (10 * size) unit in
            Sprintf_1f size unit
            = pretty (t / 10) +:+ "."
              +:+ String (Ascii.ascii_of_nat (48 + Z.to_nat (t mod 10))) ""
            ∧ 0 ≤ t ∧ 0 ≤ t mod 10 < 10
            ∧ 2 * Z.abs (10 * size - t * unit) ≤ unit).
  { intros unit Hu t. unfold Sprintf_1f. fold t.
    assert (Hmod : 0 ≤ t mod 10 < 10) by (apply Z.mod_pos_bound; lia).
    rewrite (pretty_digit (t mod 10) Hmod).
    repeat split; try lia.
    - pose proof (round_half_even_lower (10 * size) unit Hu) as Hl. fold t in Hl.
      assert (0 ≤ 10 * size / unit) by (apply Z.div_pos; lia). lia.
    - apply round_half_even_near. done. }
  assert (Hexact : 2 ^ 53 ≤ z ∨ size = z) by lia.
  assert (HGB : GB < 2 ^ 53) by done.
  assert (HMB : MB < GB) by done.
  assert (Happ : ∀ a d u : string,
            (a +:+ "." +:+ d) +:+ String " " u = a +:+ "." +:+ d +:+ " " +:+ u).
  { intros a d u. by rewrite !string_app_assoc. }
  destruct (decide (GB ≤ size)) as [Hg | Hg];
    [|destruct (decide (MB ≤ size)) as [Hm | Hm]].
  - destruct (Hform GB ltac:(done)) as (E & ? & ? & ?).
    eexists "GB", GB, _. rewrite E, Happ.
    split; [done|]. do 2 (split; [done|]). split; [|done].
    right; right. repeat split; try done. lia.
  - destruct (Hform MB ltac:(done)) as (E & ? & ? & ?).
    eexists "MB", MB, _. rewrite E, Happ.
    split; [done|]. do 2 (split; [done|]). split; [|done].
    right; left. repeat split; try done; lia.
  - destruct (Hform KB ltac:(done)) as (E & ? & ? & ?).
    eexists "KB", KB, _. rewrite E, Happ.
    split; [done|]. do 2 (split; [done|]). split; [|done].
    left. repeat split; try done; lia.
Qed.

(** ** Cancel and the constructor *)

(** C9.  Whatever the state of the builder, [Cancel] returns no error and
    leaves no job referenced, so that [IsCompiling] is false afterwards.
    With an active job it calls that job's [cancel] and clears the
    reference; with none it changes nothing.  Either way no process is
    waited for: files, clock, trace, configurations and jobs are as before.
    A second [Cancel] right after the first returns no error either and
    changes nothing. *)
Theorem Cancel_idempotent (h : GoBuild) (σ : State) :
  ∃ h' σ',
    Cancel h σ = (None, h', σ')
    ∧ active h' = None
    ∧ IsCompiling h' = false
    ∧ match active h with
      | Some job => cancelled σ' = {[job]} ∪ cancelled σ
      | None => h' = h ∧ σ' = σ
      end
    ∧ (configs σ', comps σ', files σ', clock σ', trace σ')
      = (configs σ, comps σ, files σ, clock σ, trace σ)
    ∧ (config h', outFileName h', outTempFileName h', binarySizerLog h')
      = (config h, outFileName h, outTempFileName h, binarySizerLog h)
    ∧ Cancel h' σ' = (None, h', σ').
Proof.
  unfold Cancel. destruct (active h) as [job|] eqn:Hact.
  - eexists _, _. split; [reflexivity|]. simpl. by repeat split.
  - exists h, σ. rewrite Hact. repeat split; try done.
    unfold IsCompiling. rewrite Hact. by apply bool_decide_eq_false_2; intros [].
Qed.

(** C10.  When the configuration behind the caller's pointer has no
    timeout, [New] succeeds, the builder holds that same pointer, and the
    configuration behind it now has a timeout of five seconds and is
    otherwise as it was; no other configuration and nothing else in the
    state changes.  The next [CompileProgram] and the next
    [CompileToMemory] create their context with a timeout of five seconds. *)
Theorem New_default_timeout (c : loc) (σ : State) (cfg : Config) :
  configs σ !! c = Some cfg →
  Timeout cfg = 0 →
  ∃ h σ' cfg',
    New c σ = Some (h, σ')
    ∧ config h = c
    ∧ configs σ' !! c = Some cfg'
    ∧ Timeout cfg' = 5 * 1000000000
    ∧ (AppRootDir cfg', Command cfg', MainInputFileRelativePath cfg',
       OutName cfg', Extension cfg', CompilingArguments cfg',
       OutFolderRelativePath cfg', Logger cfg', Callback cfg', Env cfg')
      = (AppRootDir cfg, Command cfg, MainInputFileRelativePath cfg,
         OutName cfg, Extension cfg, CompilingArguments cfg,
         OutFolderRelativePath cfg, Logger cfg, Callback cfg, Env cfg)
    ∧ (∀ c', c' ≠ c → configs σ' !! c' = configs σ !! c')
    ∧ (comps σ', cancelled σ', files σ', clock σ', trace σ')
      = (comps σ, cancelled σ, files σ, clock σ, trace σ)
    ∧ (∃ comp h1 σ1,
          CompileProgram_begin h σ' = Some (comp, 5 * 1000000000, h1, σ1))
    ∧ (∃ comp h1 σ1,
          CompileToMemory_begin h σ' = Some (comp, 5 * 1000000000, h1, σ1)).
Proof.
  intros Hc Ht. unfold New. rewrite Hc. simpl.
  rewrite decide_True by done. simpl. rewrite lookup_insert_eq. simpl.
  eexists _, _, _. split; [reflexivity|]. simpl.
  rewrite lookup_insert_eq.
  split; [done|]. split; [reflexivity|]. split; [reflexivity|].
  split; [reflexivity|].
  split; [by intros c' Hne; rewrite lookup_insert_ne|].
  split; [reflexivity|].
  split.
  - unfold CompileProgram_begin. simpl. rewrite lookup_insert_eq. simpl.
    eexists _, _, _. reflexivity.
  - unfold CompileToMemory_begin. simpl. rewrite lookup_insert_eq. simpl.
    eexists _, _, _. reflexivity.
Qed.

Lemma New_default_timeout_witness :
  ∃ h σ' cfg',
    New 0%nat (Sample.machine Sample.cfg) = Some (h, σ')
    ∧ config h = 0%nat
    ∧ configs σ' !! 0%nat = Some cfg'
    ∧ Timeout cfg' = 5 * 1000000000
    ∧ (AppRootDir cfg', Command cfg', MainInputFileRelativePath cfg',
       OutName cfg', Extension cfg', CompilingArguments cfg',
       OutFolderRelativePath cfg', Logger cfg', Callback cfg', Env cfg')
      = (AppRootDir Sample.cfg, Command Sample.cfg,
         MainInputFileRelativePath Sample.cfg,
         OutName Sample.cfg, Extension Sample.cfg,
         CompilingArguments Sample.cfg,
         OutFolderRelativePath Sample.cfg, Logger Sample.cfg,
         Callback Sample.cfg, Env Sample.cfg)
    ∧ (∀ c', c' ≠ 0%nat →
             configs σ' !! c' = configs (Sample.machine Sample.cfg) !! c')
    ∧ (comps σ', cancelled σ', files σ', clock σ', trace σ')
      = (comps (Sample.machine Sample.cfg),
         cancelled (Sample.machine Sample.cfg),
         files (Sample.machine Sample.cfg), clock (Sample.machine Sample.cfg),
         trace (Sample.machine Sample.cfg))
    ∧ (∃ comp h1 σ1,
          CompileProgram_begin h σ' = Some (comp, 5 * 1000000000, h1, σ1))
    ∧ (∃ comp h1 σ1,
          CompileToMemory_begin h σ' = Some (comp, 5 * 1000000000, h1, σ1)).
Proof.
  apply (New_default_timeout 0%nat (Sample.machine Sample.cfg) Sample.cfg);
    reflexivity.
Defined.

(** ** Compilation to memory *)

Section CompileToMemory_facts.

Variable Environ : list string.
Variable Duration_String : Duration → string.
Variable run : exec.Cmd → Duration → gmap string (list byte) → Outcome.

(** the state is changed by [cancelActive] and [installJob] in the
    bookkeeping fields only *)
Lemma cancelActive_frame (h : GoBuild) (σ : State) :
  let '(h', σ') := cancelActive h σ in
  active h' = None ∧ config h' = config h ∧ outFileName h' = outFileName h
  ∧ configs σ' = configs σ ∧ comps σ' = comps σ ∧ files σ' = files σ
  ∧ clock σ' = clock σ ∧ trace σ' = trace σ.
Proof. unfold cancelActive. destruct (active h) eqn:E; by simpl. Qed.

(** One call of [CompileToMemory], step by step: the job is cleared
    again at the end, the child is launched once with [memoryCmd], and
    the result is decided from the outcome by [ctx.Err()] first and the
    error of [Run] second. *)
Lemma CompileToMemory_outcome (h : GoBuild) (σ : State) (cfg : Config) :
  configs σ !! config h = Some cfg →
  let r := run (memoryCmd Environ cfg) (Timeout cfg) (files σ) in
  ∃ h' σ',
    CompileToMemory Environ Duration_String run h σ
    = Some (if decide (out_ctxErr r = Some DeadlineExceeded) then []
            else match out_err r with
                 | Some _ => []
                 | None => out_stdout r
                 end,
            if decide (out_ctxErr r = Some DeadlineExceeded)
            then Some (errorString ("compilation timed out after "
                                    +:+ Duration_String (Timeout cfg)))
            else match out_err r with
                 | Some err =>
                     Some (wrapError
                             ("compilation failed: " +:+ Error err
                              +:+ String "010" "Output: "
                              +:+ string_of_list_byte (out_stderr r)) err)
                 | None => None
                 end,
            h', σ')
    ∧ active h' = None
    ∧ config h' = config h ∧ outFileName h' = outFileName h
    ∧ configs σ' = configs σ
    ∧ files σ' = out_files r
    ∧ (∀ job, job ∈ dom (comps σ) → comps σ' !! job = comps σ !! job)
    ∧ (∀ job c, comps σ' !! job = Some c → job ∉ dom (comps σ) →
                memoryBytes c = [])
    ∧ Launched (memoryCmd Environ cfg) (Timeout cfg) ∈ trace σ'.
Proof.
  intros Hcfg r.
  unfold CompileToMemory, CompileToMemory_begin. rewrite Hcfg. simpl.
  pose proof (cancelActive_frame h σ) as Hframe.
  destruct (cancelActive h σ) as [h1 σ1].
  destruct Hframe as (Hact1 & Hc1 & Hn1 & Hcf1 & Hcm1 & Hf1 & Hck1 & Ht1).
  unfold installJob. simpl.
  unfold CompileToMemory_run. simpl. rewrite Hc1, Hcf1, Hcfg. simpl.
  unfold CompileToMemory_result, clearJob. simpl.
  rewrite decide_True by done. simpl.
  assert (Hfiles : files (match Logger cfg with
                          | Some f => emit (Logged f [anyString "Compiling to memory..."])
                                        (set_comps <[fresh (dom (comps σ1)) :=
                                           {| cmd := None; tempFile := "memory";
                                              startTime := clock σ1;
                                              memoryBytes := [] |}]> σ1)
                          | None => set_comps <[fresh (dom (comps σ1)) :=
                                      {| cmd := None; tempFile := "memory";
                                         startTime := clock σ1;
                                         memoryBytes := [] |}]> σ1
                          end) = files σ).
  { destruct (Logger cfg); simpl; done. }
  set (σ2 := match Logger cfg with Some _ => _ | None => _ end) in *.
  assert (Hcfg2 : configs σ2 = configs σ).
  { unfold σ2. destruct (Logger cfg); simpl; done. }
  assert (Hcomps2 : comps σ2 = <[fresh (dom (comps σ)) :=
                       {| cmd := None; tempFile := "memory";
                          startTime := clock σ1; memoryBytes := [] |}]> (comps σ)).
  { unfold σ2. destruct (Logger cfg); simpl; by rewrite Hcm1. }
  assert (Htrace2 : ∀ e, Launched (memoryCmd Environ cfg) (Timeout cfg)
                         ∈ trace σ2 ++ [Launched (memoryCmd Environ cfg) (Timeout cfg)] ++ e).
  { intros e. apply elem_of_app. right. apply list_elem_of_here. }
  unfold launch. rewrite Hfiles. fold r. simpl.
  rewrite Hc1, Hcfg2, Hcfg. simpl.
  assert (Hjobs : ∀ job, job ∈ dom (comps σ) → comps σ2 !! job = comps σ !! job).
  { intros job Hin. rewrite Hcomps2. apply lookup_insert_ne.
    intros <-. by apply is_fresh in Hin. }
  assert (Hnew : ∀ job c, comps σ2 !! job = Some c → job ∉ dom (comps σ) →
                          memoryBytes c = []).
  { intros job c Hl Hnin. rewrite Hcomps2 in Hl.
    destruct (decide (job = fresh (dom (comps σ)))) as [->|Hne].
    - rewrite lookup_insert_eq in Hl. by inversion Hl.
    - rewrite lookup_insert_ne in Hl by done.
      exfalso. apply Hnin. apply elem_of_dom. eauto. }
  destruct (decide (out_ctxErr r = Some DeadlineExceeded)); simpl.
  { eexists _, _. split; [reflexivity|]. simpl.
    repeat split; try done. apply (Htrace2 []). }
  destruct (out_err r); simpl.
  { eexists _, _. split; [reflexivity|]. simpl.
    repeat split; try done. apply (Htrace2 []). }
  eexists _, _. split; [reflexivity|].
  destruct (Logger cfg); simpl; repeat split; try done.
  - rewrite <- app_assoc. apply Htrace2.
  - apply (Htrace2 []).
Qed.

End CompileToMemory_facts.

(** After a call of [CompileToMemory] no job is referenced, so
    [getBinaryBytes] reads the final output path from disk, whatever the
    call captured. *)
Lemma getBinaryBytes_after_CompileToMemory
    (Environ : list string) (Duration_String : Duration → string)
    (run : exec.Cmd → Duration → gmap string (list byte) → Outcome)
    (h : GoBuild) (σ : State) (cfg : Config) :
  configs σ !! config h = Some cfg →
  ∃ bytes err h' σ',
    CompileToMemory Environ Duration_String run h σ = Some (bytes, err, h', σ')
    ∧ getBinaryBytes h' σ'
      = Some (default [] (files σ' !! path.Join [OutFolderRelativePath cfg;
                                                 outFileName h])).
Proof.
  intros Hcfg.
  destruct (CompileToMemory_outcome Environ Duration_String run h σ cfg Hcfg)
    as (h' & σ' & E & Hact & Hc & Hn & Hcf & _).
  eexists _, _, h', σ'. split; [exact E|].
  unfold getBinaryBytes, FinalOutputPath.
  rewrite Hact, Hc, Hcf, Hcfg, Hn. reflexivity.
Qed.

(** C1, the part the code keeps and the part it does not.  On the sample
    configuration, with a compiler that writes four bytes to its standard
    output and succeeds, [CompileToMemory] returns exactly these four
    bytes and no error.  Right afterwards, with nothing else having run,
    [getBinaryBytes] returns nil and [BinarySize] returns [0.0 KB]: no job
    is referenced any more, no job ever has [memoryBytes], and the final
    output path does not exist. *)
Theorem CompileToMemory_binary_not_queryable :
  ∃ h σ h' σ',
    New 0%nat (Sample.machine Sample.cfg) = Some (h, σ)
    ∧ CompileToMemory Sample.Environ Sample.Duration_String Sample.compiler_ok h σ
      = Some (Sample.elf, None, h', σ')
    ∧ active h' = None
    ∧ (∀ job c, comps σ' !! job = Some c → memoryBytes c = [])
    ∧ getBinaryBytes h' σ' = Some []
    ∧ GoBuild_BinarySize h' σ' = Some "0.0 KB".
Proof.
  destruct (New 0%nat (Sample.machine Sample.cfg)) as [[h σ]|] eqn:HNew;
    [|by vm_compute in HNew].
  assert (Hcfg : configs σ !! config h = Some (withTimeout Sample.cfg (5 * Second))).
  { vm_compute in HNew. by inversion HNew. }
  assert (Hcomps : comps σ = ∅).
  { vm_compute in HNew. by inversion HNew. }
  assert (Hname : outFileName h = "testapp").
  { vm_compute in HNew. by inversion HNew. }
  assert (Hfiles : files σ = ∅).
  { vm_compute in HNew. by inversion HNew. }
  destruct (CompileToMemory_outcome Sample.Environ Sample.Duration_String
              Sample.compiler_ok h σ _ Hcfg)
    as (h' & σ' & E & Hact & Hc & Hn & Hcf & Hf & _ & Hmem & _).
  exists h, σ, h', σ'. split; [done|]. split; [exact E|]. split; [done|].
  split.
  { intros job c Hl. apply (Hmem job c Hl). rewrite Hcomps. set_solver. }
  assert (Hget : getBinaryBytes h' σ' = Some []).
  { unfold getBinaryBytes, FinalOutputPath.
    rewrite Hact, Hc, Hcf, Hcfg, Hn, Hname. simpl.
    unfold ReadFile. rewrite Hf, Hfiles. reflexivity. }
  split; [exact Hget|].
  unfold GoBuild_BinarySize, BinarySize. simpl. rewrite Hget. reflexivity.
Qed.

(** C3, the part the code keeps and the part it does not.  On the sample
    configuration, which has the overrides [GOOS=js] and [GOARCH=wasm],
    [CompileToMemory] launches exactly one process; its working directory
    is the configured root directory, but its environment is the inherited
    one alone, without the overrides.  [CompileProgram] on the same
    configuration launches its process with the overrides appended. *)
Theorem CompileToMemory_drops_env_overrides :
  ∃ h σ,
    New 0%nat (Sample.machine Sample.cfg) = Some (h, σ)
    ∧ (∃ bytes err h' σ' c timeout,
          CompileToMemory Sample.Environ Sample.Duration_String
            Sample.compiler_ok h σ = Some (bytes, err, h', σ')
          ∧ trace σ' = [Launched c timeout]
          ∧ exec.Dir c = AppRootDir Sample.cfg
          ∧ exec.Env c = Some Sample.Environ
          ∧ exec.environ Sample.Environ c = ["PATH=/usr/bin"; "HOME=/root"]
          ∧ Env Sample.cfg = ["GOOS=js"; "GOARCH=wasm"])
    ∧ (∃ err spawned h' σ' c timeout,
          CompileProgram Sample.Environ Sample.compiler_ok h σ
          = Some (err, spawned, h', σ')
          ∧ trace σ' = [Launched c timeout]
          ∧ exec.environ Sample.Environ c
            = ["PATH=/usr/bin"; "HOME=/root"; "GOOS=js"; "GOARCH=wasm"]).
Proof.
  eexists _, _. split; [vm_compute; reflexivity|]. split.
  - eexists _, _, _, _, _, _. split; [vm_compute; reflexivity|].
    simpl. repeat split.
  - eexists _, _, _, _, _, _. split; [vm_compute; reflexivity|].
    simpl. repeat split.
Qed.

(** ** Compilation to disk *)

Section compileSync_facts.

Variable Environ : list string.
Variable run : exec.Cmd → Duration → gmap string (list byte) → Outcome.

Lemma build_failure_kind_compileSync (rest : string) :
  build_failure_kind (errorString ("compileSync build failed: " +:+ rest)) = true.
Proof. unfold build_failure_kind. simpl. by rewrite prefix_app. Qed.

Lemma timeout_kind_compileSync (rest : string) :
  timeout_kind (errorString ("compileSync build failed: " +:+ rest)) = false.
Proof. reflexivity. Qed.

(** What one call of [compileSync] does, by the result of the launch and,
    when that is no error, by whether the temp artifact is there. *)
Lemma compileSync_outcome
    (h : GoBuild) (timeout : Duration) (comp : loc) (σ : State)
    (cfg : Config) (job : compilation) :
  configs σ !! config h = Some cfg →
  comps σ !! comp = Some job →
  let c := {| exec.Path := Command cfg;
              exec.Args := buildArguments cfg (tempFile job);
              exec.Dir := OutFolderRelativePath cfg;
              exec.Env := if decide (0 < length (Env cfg))%nat
                          then Some (Environ ++ Env cfg) else None |} in
  let r := run c timeout (files σ) in
  let temp := path.Join [OutFolderRelativePath cfg; tempFile job] in
  let final := path.Join [OutFolderRelativePath cfg; outFileName h] in
  ∃ res σ',
    compileSync Environ run h timeout comp σ = Some (res, σ')
    ∧ trace σ' = trace σ ++ [Launched c timeout]
    ∧ match out_err r with
      | Some err =>
          res = Some (errorString
                        ("compileSync build failed: " +:+ Error err
                         +:+ match out_combined r with
                             | [] => ""
                             | _ => " " +:+ string_of_list_byte (out_combined r)
                             end))
          ∧ (∃ e, res = Some e ∧ build_failure_kind e = true)
          ∧ files σ' = delete temp (out_files r)
          ∧ files σ' !! temp = None
      | None =>
          match out_files r !! temp with
          | Some contents =>
              res = None
              ∧ files σ' = <[final := contents]> (delete temp (out_files r))
          | None =>
              res = Some (LinkError "rename" temp final "no such file or directory")
              ∧ (∃ e, res = Some e ∧ build_failure_kind e = false
                      ∧ timeout_kind e = false)
              ∧ files σ' = out_files r
          end
      end.
Proof.
  intros Hcfg Hjob c r temp final.
  unfold compileSync. rewrite Hcfg, Hjob. simpl.
  unfold launch. simpl. fold c. fold r.
  destruct (out_err r) as [err|] eqn:Herr.
  - eexists _, _. split; [reflexivity|]. simpl. split; [done|].
    assert (Hmsg : (if decide (0 < length (out_combined r))%nat
                    then ("compileSync" +:+ " build failed: " +:+ Error err)
                         +:+ " " +:+ string_of_list_byte (out_combined r)
                    else "compileSync" +:+ " build failed: " +:+ Error err)
                   = "compileSync build failed: " +:+ Error err
                     +:+ match out_combined r with
                         | [] => ""
                         | _ => " " +:+ string_of_list_byte (out_combined r)
                         end).
    { destruct (out_combined r) as [|b bs].
      - rewrite decide_False by (simpl; lia).
        change ("compileSync" +:+ " build failed: " +:+ Error err)
          with ("compileSync build failed: " +:+ Error err).
        by rewrite string_app_nil_r.
      - rewrite decide_True by (simpl; lia).
        change ("compileSync" +:+ " build failed: " +:+ Error err)
          with ("compileSync build failed: " +:+ Error err).
        by rewrite !string_app_assoc. }
    rewrite Hmsg. split; [done|]. split.
    + eexists. split; [done|]. rewrite <- !string_app_assoc.
      rewrite string_app_assoc. apply build_failure_kind_compileSync.
    + split; [done|]. apply lookup_delete_eq.
  - unfold renameOutputFile, tempPath. simpl. fold temp. fold final.
    destruct (out_files r !! temp) as [contents|] eqn:Htemp.
    + eexists _, _. split; [reflexivity|]. simpl. by split.
    + eexists _, _. split; [reflexivity|]. simpl. split; [done|].
      split; [done|]. split; [|done].
      eexists. split; [done|]. split; reflexivity.
Qed.


End compileSync_facts.


(** ** Timeouts *)

Section timeout_facts.

Variable Environ : list string.
Variable Duration_String : Duration → string.
Variable run : exec.Cmd → Duration → gmap string (list byte) → Outcome.



End timeout_facts.



(** ** The single active job *)

Section single_active_facts.

Variable Environ : list string.
Variable Duration_String : Duration → string.
Variable run : exec.Cmd → Duration → gmap string (list byte) → Outcome.

(** [compileSync] touches no bookkeeping: the builder is not changed at
    all, and in the state the same jobs exist, the same have been cancelled
    and the configurations are the same. *)
Lemma compileSync_frame (h : GoBuild) (timeout : Duration) (comp : loc)
    (σ σ' : State) (res : option error) :
  compileSync Environ run h timeout comp σ = Some (res, σ') →
  dom (comps σ') = dom (comps σ) ∧ cancelled σ' = cancelled σ
  ∧ configs σ' = configs σ.
Proof.
  unfold compileSync. intros H.
  destruct (configs σ !! config h) as [cfg|]; [|done].
  destruct (comps σ !! comp) as [job|] eqn:Hjob; [|done].
  simpl in H. unfold launch in H. simpl in H.
  assert (Hdom : dom (<[comp := {| cmd := Some
            {| exec.Path := Command cfg;
               exec.Args := buildArguments cfg (tempFile job);
               exec.Dir := OutFolderRelativePath cfg;
               exec.Env := if decide (0 < length (Env cfg))%nat
                           then Some (Environ ++ Env cfg) else None |};
            tempFile := tempFile job; startTime := startTime job;
            memoryBytes := memoryBytes job |}]> (comps σ)) = dom (comps σ)).
  { apply dom_insert_lookup_L. by eexists. }
  match type of H with
  | context [out_err ?r] => destruct (out_err r)
  end.
  - inversion H; subst. simpl. by rewrite Hdom.
  - unfold renameOutputFile in H. simpl in H.
    match type of H with
    | context [match ?m !! ?k with _ => _ end] => destruct (m !! k)
    end; inversion H; subst; simpl; by rewrite Hdom.
Qed.

Lemma CompileToMemory_run_frame (timeout : Duration) (h : GoBuild)
    (σ σ' : State) (r : Outcome) :
  CompileToMemory_run Environ run timeout h σ = Some (r, σ') →
  comps σ' = comps σ ∧ cancelled σ' = cancelled σ ∧ configs σ' = configs σ.
Proof.
  unfold CompileToMemory_run. intros H.
  destruct (configs σ !! config h) as [cfg|]; [|done].
  simpl in H. unfold launch in H.
  destruct (Logger cfg); inversion H; subst; by simpl.
Qed.

Lemma CompileToMemory_result_frame (r : Outcome) (h : GoBuild) (σ σ' : State) (bytes : list byte)
    (err : option error) :
  CompileToMemory_result Duration_String r h σ = Some (bytes, err, σ') →
  comps σ' = comps σ ∧ cancelled σ' = cancelled σ ∧ configs σ' = configs σ.
Proof.
  unfold CompileToMemory_result. intros H.
  destruct (configs σ !! config h) as [cfg|]; [|done]. simpl in H.
  destruct (decide (out_ctxErr r = Some DeadlineExceeded));
    [by inversion H; subst|].
  destruct (out_err r); [by inversion H; subst|].
  destruct (Logger cfg); inversion H; subst; by simpl.
Qed.

(** a new request, with either entry point: the previous job is cancelled
    and dropped, and a job that did not exist before is referenced *)
Lemma begin_spec (tempFileName : string) (h : GoBuild) (σ : State) :
  let '(h1, σ1) := cancelActive h σ in
  let '(comp, h2, σ2) := installJob tempFileName h1 σ1 in
  active h2 = Some comp
  ∧ comp = fresh (dom (comps σ))
  ∧ config h2 = config h
  ∧ configs σ2 = configs σ
  ∧ dom (comps σ2) = {[comp]} ∪ dom (comps σ)
  ∧ cancelled σ2 = match active h with
                   | Some old => {[old]} ∪ cancelled σ
                   | None => cancelled σ
                   end.
Proof.
  unfold cancelActive, installJob.
  destruct (active h) as [old|] eqn:Hact; simpl;
    rewrite dom_insert_L; by repeat split.
Qed.

Lemma single_active_begin (D : gset loc) (E : list action) (a : action)
    (tempFileName : string) (h : GoBuild) (σ : State) :
  single_active D E (h, σ) →
  let '(h1, σ1) := cancelActive h σ in
  let '(comp, h2, σ2) := installJob tempFileName h1 σ1 in
  single_active D (E ++ [a]) (h2, σ2).
Proof.
  intros (I1 & I2 & I3 & I4 & I5). simpl in I1, I2, I3, I4, I5.
  pose proof (begin_spec tempFileName h σ) as Hb.
  destruct (cancelActive h σ) as [h1 σ1].
  destruct (installJob tempFileName h1 σ1) as [[comp h2] σ2].
  destruct Hb as (Hact & Hcomp & Hcfg & Hcfgs & Hdom & Hcan).
  assert (Hfresh : comp ∉ dom (comps σ)) by (subst comp; apply is_fresh).
  assert (Hold : ∀ old, active h = Some old → old ∈ dom (comps σ)).
  { intros old Ho. by apply I1. }
  unfold single_active. simpl. rewrite Hact, Hcfg, Hcfgs, Hdom, Hcan.
  split; [|split; [|split; [|split]]]; try done.
  - intros j [= <-]. split; [set_solver|]. split; [set_solver|].
    destruct (active h) as [old|] eqn:Ho; [|set_solver].
    specialize (Hold old eq_refl). set_solver.
  - intros k Hk HkD Hne.
    assert (Hk' : k ∈ dom (comps σ)).
    { apply elem_of_union in Hk as [Hk|Hk]; [|done].
      apply elem_of_singleton in Hk. congruence. }
    destruct (active h) as [old|] eqn:Ho.
    + destruct (decide (k = old)) as [->|Hko]; [left; set_solver|].
      destruct (I2 k Hk' HkD) as [Hc|He]; [congruence|left; set_solver|].
      right. apply elem_of_app. by left.
    + destruct (I2 k Hk' HkD) as [Hc|He]; [done|by left|].
      right. apply elem_of_app. by left.
  - destruct (active h) as [old|] eqn:Ho; [|set_solver].
    specialize (Hold old eq_refl). set_solver.
  - set_solver.
Qed.

(** every step keeps [single_active] *)
Lemma single_active_step (D : gset loc) (E : list action) (a : action)
    (s s' : GoBuild * State) :
  single_active D E s →
  step Environ Duration_String run a s = Some s' →
  single_active D (E ++ [a]) s'.
Proof.
  destruct s as [h σ]. intros HI Hstep.
  assert (Hweak : single_active D (E ++ [a]) (h, σ)).
  { destruct HI as (I1 & I2 & I3 & I4 & I5). repeat split; try done.
    - by apply I1.
    - by apply I1.
    - by apply I1.
    - intros k Hk HkD Hne. destruct (I2 k Hk HkD Hne); [by left|].
      right. apply elem_of_app. by left. }
  destruct a; simpl in Hstep.
  - unfold CompileProgram_begin in Hstep.
    destruct (configs σ !! config h) as [cfg|]; [|done]. simpl in Hstep.
    pose proof (single_active_begin D E ActProgramBegin
                  (OutName cfg +:+ "_temp_" +:+ pretty (clock (cancelActive h σ).2)
                   +:+ Extension cfg) h σ HI) as Hb.
    destruct (cancelActive h σ) as [h1 σ1]. simpl in *.
    by inversion Hstep; subst.
  - destruct (compileSync Environ run h timeout comp σ) as [[res σ1]|] eqn:Hs;
      [|done].
    simpl in Hstep. inversion Hstep; subst.
    apply compileSync_frame in Hs as (Hdom & Hcan & Hcfg).
    destruct Hweak as (I1 & I2 & I3 & I4 & I5).
    unfold single_active. simpl in *. by rewrite Hdom, Hcan, Hcfg.
  - destruct (configs σ !! config h) as [cfg|]; [|done]. simpl in Hstep.
    destruct (Callback cfg); [|done]. simpl in Hstep.
    by inversion Hstep; subst.
  - unfold CompileToMemory_begin in Hstep.
    destruct (configs σ !! config h) as [cfg|]; [|done]. simpl in Hstep.
    pose proof (single_active_begin D E ActMemoryBegin "memory" h σ HI) as Hb.
    destruct (cancelActive h σ) as [h1 σ1]. simpl in *.
    by inversion Hstep; subst.
  - destruct (CompileToMemory_run Environ run timeout h σ) as [[r σ1]|] eqn:Hs;
      [|done].
    simpl in Hstep. inversion Hstep; subst.
    apply CompileToMemory_run_frame in Hs as (Hcomps & Hcan & Hcfg).
    destruct Hweak as (I1 & I2 & I3 & I4 & I5).
    unfold single_active. simpl in *. by rewrite Hcomps, Hcan, Hcfg.
  - inversion Hstep; subst. unfold clearJob.
    destruct (decide (active h = Some comp)) as [Hact|Hact]; [|done].
    destruct HI as (I1 & I2 & I3 & I4 & I5).
    repeat split; simpl in *; try done.
    intros k Hk HkD _.
    destruct (decide (k = comp)) as [->|Hne].
    + right. apply elem_of_app. right. apply list_elem_of_here.
    + destruct (I2 k Hk HkD) as [Hc|He]; [congruence|by left|].
      right. apply elem_of_app. by left.
  - destruct (CompileToMemory_result Duration_String r h σ)
      as [[[bytes err] σ1]|] eqn:Hs; [|done].
    simpl in Hstep. inversion Hstep; subst.
    apply CompileToMemory_result_frame in Hs as (Hcomps & Hcan & Hcfg).
    destruct Hweak as (I1 & I2 & I3 & I4 & I5).
    unfold single_active. simpl in *. by rewrite Hcomps, Hcan, Hcfg.
  - unfold Cancel in Hstep.
    destruct (active h) as [old|] eqn:Hact; inversion Hstep; subst; [|done].
    destruct HI as (I1 & I2 & I3 & I4 & I5). simpl in *.
    destruct (I1 old Hact) as (Hin & HnD & Hnc).
    repeat split; simpl; try done.
    + intros k Hk HkD _.
      destruct (decide (k = old)) as [->|Hne]; [left; set_solver|].
      destruct (I2 k Hk HkD) as [Hc|He]; [congruence|left; set_solver|].
      right. apply elem_of_app. by left.
    + set_solver.
  - by inversion Hstep; subst.
Qed.

Lemma single_active_execute (D : gset loc) (acts E : list action)
    (s s' : GoBuild * State) :
  single_active D E s →
  execute Environ Duration_String run acts s = Some s' →
  single_active D (E ++ acts) s'.
Proof.
  revert E s. induction acts as [|a acts IH]; intros E s HI Hex.
  - simpl in Hex. inversion Hex; subst. by rewrite app_nil_r.
  - simpl in Hex. destruct (step Environ Duration_String run a s) as [s1|] eqn:Hstep; [|done].
    simpl in Hex.
    replace (E ++ a :: acts) with ((E ++ [a]) ++ acts)
      by (by rewrite <- app_assoc).
    eapply IH; [|exact Hex]. by eapply single_active_step.
Qed.

(** The calls are runs of the steps: what a whole call does, with no
    other goroutine in between, is what its steps do one after the other. *)
Lemma CompileProgram_steps (h h' : GoBuild) (σ σ' : State)
    (err : option error) (spawned : option (loc * Duration)) :
  CompileProgram Environ run h σ = Some (err, spawned, h', σ') →
  match spawned with
  | None =>
      ∃ comp timeout,
        execute Environ Duration_String run
          [ActProgramBegin; ActCompileSync timeout comp; ActEnd comp] (h, σ)
        = Some (h', σ')
  | Some (comp, timeout) =>
      err = None
      ∧ active h' = Some comp
      ∧ execute Environ Duration_String run [ActProgramBegin] (h, σ)
        = Some (h', σ')
  end.
Proof.
  unfold CompileProgram. simpl. intros H.
  destruct (CompileProgram_begin h σ) as [[[[comp timeout] h1] σ1]|] eqn:Hb;
    [|done].
  simpl in H.
  assert (Hact : active h1 = Some comp).
  { unfold CompileProgram_begin in Hb.
    destruct (configs σ !! config h); [|done]. simpl in Hb.
    destruct (cancelActive h σ). simpl in Hb. by inversion Hb; subst. }
  destruct (configs σ1 !! config h1) as [cfg|]; [|done]. simpl in H.
  destruct (Callback cfg).
  - inversion H; subst. by repeat split.
  - destruct (compileSync Environ run h1 timeout comp σ1) as [[res σ2]|] eqn:Hs;
      [|done].
    simpl in H. inversion H; subst. exists comp, timeout.
    simpl. by rewrite Hs.
Qed.

Lemma CompileProgram_goroutine_steps (timeout : Duration) (comp : loc)
    (h h' : GoBuild) (σ σ' : State) :
  CompileProgram_goroutine Environ run timeout comp h σ = Some (h', σ') →
  ∃ err,
    execute Environ Duration_String run
      [ActCompileSync timeout comp; ActCallback comp err; ActEnd comp] (h, σ)
    = Some (h', σ').
Proof.
  unfold CompileProgram_goroutine. simpl. intros H.
  destruct (compileSync Environ run h timeout comp σ) as [[err σ1]|]; [|done].
  simpl in H. exists err. simpl.
  destruct (configs σ1 !! config h) as [cfg|]; [|done]. simpl in *.
  destruct (Callback cfg); [|done]. simpl in *. by inversion H; subst.
Qed.

Lemma CompileToMemory_steps (h h' : GoBuild) (σ σ' : State)
    (bytes : list byte) (err : option error) :
  CompileToMemory Environ Duration_String run h σ = Some (bytes, err, h', σ') →
  ∃ comp timeout r,
    execute Environ Duration_String run
      [ActMemoryBegin; ActMemoryRun timeout; ActEnd comp; ActMemoryResult r]
      (h, σ)
    = Some (h', σ').
Proof.
  unfold CompileToMemory. simpl. intros H.
  destruct (CompileToMemory_begin h σ) as [[[[comp timeout] h1] σ1]|] eqn:Hb;
    [|done].
  simpl in H.
  destruct (CompileToMemory_run Environ run timeout h1 σ1) as [[r σ2]|] eqn:Hr;
    [|done].
  simpl in H. exists comp, timeout, r. simpl. rewrite Hr. simpl.
  destruct (CompileToMemory_result Duration_String r (clearJob comp h1) σ2)
    as [[[bs e] σ3]|]; [|done].
  simpl in *. by inversion H; subst.
Qed.

End single_active_facts.

(** a builder fresh from [New] references no job, and [New] has touched
    no job *)
Lemma New_single_active (c : loc) (σ0 σ0' : State) (h0 : GoBuild) :
  cancelled σ0 ⊆ dom (comps σ0) →
  New c σ0 = Some (h0, σ0') →
  single_active (dom (comps σ0)) [] (h0, σ0').
Proof.
  intros Hwf HNew. unfold New in HNew.
  destruct (configs σ0 !! c) as [cfg|] eqn:Hc; [|done]. simpl in HNew.
  destruct (decide (Timeout cfg = 0)); simpl in HNew.
  - rewrite lookup_insert_eq in HNew. simpl in HNew.
    inversion HNew; subst. repeat split; simpl; try done.
    rewrite lookup_insert_eq. by eexists.
  - rewrite Hc in HNew. simpl in HNew.
    inversion HNew; subst. repeat split; simpl; try done.
Qed.

(** C4.  Take a builder made by [New], in a state where only jobs that
    exist have been cancelled, and any interleaving of steps of
    [CompileProgram], [CompileToMemory], [Cancel] and [IsCompiling] on it.
    In the state reached, the job the builder references, if any, is one
    of its own, and its [cancel] has not been called; every other job of the
    builder has had its [cancel] called or has taken its last step: at most
    one job is active.  From that state, a new request (either entry point)
    goes through, references a job that did not exist before and whose
    [cancel] has not been called, and has called [cancel] on the job that was
    referenced before, if any, which is no longer referenced.  A job taking
    its last step clears the reference when the reference is that job, and
    otherwise leaves it alone: a superseded job does not clear the reference
    to a newer one. *)
Theorem single_active_job
    (Environ : list string) (Duration_String : Duration → string)
    (run : exec.Cmd → Duration → gmap string (list byte) → Outcome)
    (c : loc) (σ0 σ0' : State) (h0 : GoBuild)
    (acts : list action) (h : GoBuild) (σ : State) :
  cancelled σ0 ⊆ dom (comps σ0) →
  New c σ0 = Some (h0, σ0') →
  execute Environ Duration_String run acts (h0, σ0') = Some (h, σ) →
  (∀ j, active h = Some j →
        j ∈ dom (comps σ) ∧ (j ∉ dom (comps σ0)) ∧ (j ∉ cancelled σ))
  ∧ (∀ k, k ∈ dom (comps σ) → k ∉ dom (comps σ0) → active h ≠ Some k →
          k ∈ cancelled σ ∨ ActEnd k ∈ acts)
  ∧ (∀ a, a = ActProgramBegin ∨ a = ActMemoryBegin →
          ∃ h' σ' comp,
            step Environ Duration_String run a (h, σ) = Some (h', σ')
            ∧ active h' = Some comp
            ∧ (comp ∉ dom (comps σ))
            ∧ comp ∈ dom (comps σ')
            ∧ (comp ∉ cancelled σ')
            ∧ (∀ old, active h = Some old → old ≠ comp ∧ old ∈ cancelled σ'))
  ∧ (∀ comp,
        step Environ Duration_String run (ActEnd comp) (h, σ) = Some (clearJob comp h, σ)
        ∧ active (clearJob comp h)
          = if decide (active h = Some comp) then None else active h)
  ∧ (∀ comp newer,
        active h = Some newer → newer ≠ comp →
        active (clearJob comp h) = Some newer).
Proof.
  intros Hwf HNew Hex.
  pose proof (single_active_execute Environ Duration_String run _ acts [] _ _
                (New_single_active c σ0 σ0' h0 Hwf HNew) Hex) as HI.
  rewrite app_nil_l in HI.
  pose proof HI as (I1 & I2 & I3 & I4 & I5). simpl in I1, I2, I3, I4, I5.
  split; [exact I1|]. split; [exact I2|]. split; [|split].
  - intros a Ha.
    assert (Hstep : ∃ tempFileName,
               step Environ Duration_String run a (h, σ)
               = Some (let '(h1, σ1) := cancelActive h σ in
                       let '(comp, h2, σ2) := installJob tempFileName h1 σ1 in
                       (h2, σ2))).
    { destruct I5 as [cfg Hcfg].
      destruct Ha as [-> | ->]; simpl.
      - unfold CompileProgram_begin. rewrite Hcfg. simpl.
        destruct (cancelActive h σ) as [h1 σ1]. simpl. by eexists.
      - unfold CompileToMemory_begin. rewrite Hcfg. simpl.
        destruct (cancelActive h σ) as [h1 σ1]. simpl. by eexists. }
    destruct Hstep as [tempFileName Hstep]. rewrite Hstep.
    pose proof (begin_spec tempFileName h σ) as Hb.
    destruct (cancelActive h σ) as [h1 σ1].
    destruct (installJob tempFileName h1 σ1) as [[comp h2] σ2].
    destruct Hb as (Hact & Hcomp & Hcfg & Hcfgs & Hdom & Hcan).
    assert (Hfresh : comp ∉ dom (comps σ)) by (subst comp; apply is_fresh).
    exists h2, σ2, comp. split; [done|]. split; [done|]. split; [done|].
    split; [set_solver|]. rewrite Hcan.
    destruct (active h) as [old|] eqn:Ho.
    + destruct (I1 old eq_refl) as (Hin & _ & _).
      split; [set_solver|]. intros ? [= <-]. split; [congruence|set_solver].
    + split; [set_solver|]. by intros.
  - intros comp. split; [done|]. unfold clearJob.
    by destruct (decide (active h = Some comp)).
  - intros comp newer Hact Hne. unfold clearJob.
    rewrite decide_False by congruence. done.
Qed.

Lemma single_active_job_witness :
  cancelled (Sample.machine Sample.cfg) ⊆ dom (comps (Sample.machine Sample.cfg))
  ∧ (∃ h0 σ0' h σ,
        New 0%nat (Sample.machine Sample.cfg) = Some (h0, σ0')
        ∧ execute Sample.Environ Sample.Duration_String Sample.compiler_ok
            [ActProgramBegin; ActMemoryBegin; ActCompileSync 5000000000 0%nat;
             ActEnd 0%nat; ActIsCompiling]
            (h0, σ0') = Some (h, σ)
        ∧ active h = Some 1%nat
        ∧ (∀ j, active h = Some j →
                j ∈ dom (comps σ)
                ∧ (j ∉ dom (comps (Sample.machine Sample.cfg)))
                ∧ (j ∉ cancelled σ))
        ∧ (∀ comp newer,
              active h = Some newer → newer ≠ comp →
              active (clearJob comp h) = Some newer)).
Proof.
  split; [apply empty_subseteq|].
  destruct (New 0%nat (Sample.machine Sample.cfg)) as [[h0 σ0']|] eqn:HNew;
    [|by vm_compute in HNew].
  destruct (execute Sample.Environ Sample.Duration_String Sample.compiler_ok
              [ActProgramBegin; ActMemoryBegin; ActCompileSync 5000000000 0%nat;
               ActEnd 0%nat; ActIsCompiling] (h0, σ0'))
    as [[h σ]|] eqn:Hex.
  - exists h0, σ0', h, σ. split; [reflexivity|]. split; [exact Hex|].
    split.
    + vm_compute in HNew. inversion HNew; subst.
      vm_compute in Hex. by inversion Hex.
    + destruct (single_active_job Sample.Environ Sample.Duration_String Sample.compiler_ok 0%nat
                  (Sample.machine Sample.cfg) σ0' h0 _ h σ
                  (empty_subseteq _) HNew Hex) as (H1 & _ & _ & _ & H5).
      split; [exact H1 | exact H5].
  - vm_compute in HNew. inversion HNew; subst. by vm_compute in Hex.
Defined.

(* ================================================================== *)
(** * Further properties *)
(* ================================================================== *)

(** ** More on the argument builder *)

(** ordinary flags in front go straight to the argument list *)
Lemma buildArguments_loop_ordinary (pre rest buildArgs ldFlags : list string) :
  Forall (λ a, ¬ is_link_flag a) pre →
  buildArguments_loop (pre ++ rest) buildArgs ldFlags
  = buildArguments_loop rest (buildArgs ++ pre) ldFlags.
Proof.
  intros Hpre. revert buildArgs.
  induction Hpre as [|a pre Ha _ IH]; intros b; simpl.
  - by rewrite app_nil_r.
  - unfold is_link_flag in Ha. destruct (strings.HasPrefix a "-X"); [done|].
    rewrite IH. by rewrite <- app_assoc.
Qed.

(** X1.  When no extra flag starts with [-X] (in particular when there is
    no flag provider), the argument list is [build], the extra flags as
    they are, [-o], the destination and the entry file: there is no
    [-ldflags=] token of the builder's making. *)
Theorem buildArguments_no_link_flags (c : Config) (dest : string) :
  Forall (λ a, ¬ is_link_flag a) (extraFlags c) →
  buildArguments c dest
  = ["build"] ++ extraFlags c
    ++ ["-o"; if path.IsAbs dest then dest
              else path.Join [OutFolderRelativePath c; dest];
        MainInputFileRelativePath c].
Proof.
  intros Hno. unfold buildArguments, extraFlags in *.
  rewrite output_path_test.
  destruct (CompilingArguments c) as [args|]; simpl in *; [|done].
  pose proof (buildArguments_loop_ordinary args [] ["build"] [] Hno) as E.
  rewrite app_nil_r in E. rewrite E. simpl. done.
Qed.

Lemma buildArguments_no_link_flags_witness :
  Forall (λ a, ¬ is_link_flag a)
    (extraFlags (withCompilingArguments Sample.cfg (Some ["-v"; "-ldflags=-s -w"])))
  ∧ buildArguments (withCompilingArguments Sample.cfg (Some ["-v"; "-ldflags=-s -w"]))
      "app_tmp"
    = ["build"; "-v"; "-ldflags=-s -w"; "-o"; "/project/out/app_tmp"; "main.go"].
Proof.
  assert (H : Forall (λ a, ¬ is_link_flag a)
                (extraFlags (withCompilingArguments Sample.cfg
                               (Some ["-v"; "-ldflags=-s -w"])))).
  { repeat constructor; intros H; vm_compute in H; discriminate H. }
  split; [exact H|].
  exact (buildArguments_no_link_flags _ "app_tmp" H).
Defined.

(** X2.  A bare [-X] takes the token after it into the link flags whatever
    that token is, and a bare [-X] that is the last token stands alone.  With
    ordinary flags [pre] in front, the flags [pre], [-X], [v] give the single
    token [-ldflags=-X v] after [pre], and the flags [pre], [-X] give
    [-ldflags=-X]. *)
Theorem buildArguments_bare_X (c : Config) (pre : list string) (v dest : string) :
  Forall (λ a, ¬ is_link_flag a) pre →
  let tail := ["-o"; if path.IsAbs dest then dest
                     else path.Join [OutFolderRelativePath c; dest];
               MainInputFileRelativePath c] in
  buildArguments (withCompilingArguments c (Some (pre ++ ["-X"; v]))) dest
  = ["build"] ++ pre ++ ["-ldflags=-X " +:+ v] ++ tail
  ∧ buildArguments (withCompilingArguments c (Some (pre ++ ["-X"]))) dest
    = ["build"] ++ pre ++ ["-ldflags=-X"] ++ tail.
Proof.
  intros Hpre tail. unfold buildArguments. simpl.
  rewrite output_path_test, !buildArguments_loop_ordinary by done.
  simpl. rewrite <- !app_assoc. done.
Qed.

Lemma buildArguments_bare_X_witness :
  Forall (λ a, ¬ is_link_flag a) ["-v"]
  ∧ buildArguments (withCompilingArguments Sample.cfg (Some ["-v"; "-X"; "-race"]))
      "/dev/stdout"
    = ["build"; "-v"; "-ldflags=-X -race"; "-o"; "/dev/stdout"; "main.go"]
  ∧ buildArguments (withCompilingArguments Sample.cfg (Some ["-v"; "-X"]))
      "/dev/stdout"
    = ["build"; "-v"; "-ldflags=-X"; "-o"; "/dev/stdout"; "main.go"].
Proof.
  assert (H : Forall (λ a, ¬ is_link_flag a) ["-v"]).
  { repeat constructor; intros H; vm_compute in H; discriminate H. }
  split; [exact H|].
  exact (buildArguments_bare_X Sample.cfg ["-v"] "-race" "/dev/stdout" H).
Defined.

Lemma prefix_split (p s : string) :
  String.prefix p s = true → ∃ r, s = p +:+ r.
Proof.
  revert s. induction p as [|x p IH]; intros s H.
  - by exists s.
  - destruct s as [|y s]; [done|]. rewrite prefix_cons in H.
    destruct (Ascii.ascii_dec x y) as [<-|]; [|done].
    destruct (IH s H) as [r ->]. by exists r.
Qed.

(** the first link flag collected, if any, starts with [-X] *)
Lemma buildArguments_loop_link_head (n : nat) :
  ∀ args buildArgs ldFlags, (length args ≤ n)%nat →
  ∃ ordinary link,
    buildArguments_loop args buildArgs ldFlags
      = (buildArgs ++ ordinary, ldFlags ++ link)
    ∧ Forall (λ a, ¬ is_link_flag a) ordinary
    ∧ ((link = [] ∧ Forall (λ a, ¬ is_link_flag a) args)
       ∨ ∃ a link', link = a :: link' ∧ is_link_flag a).
Proof.
  induction n as [|n IH]; intros args b l Hlen.
  { destruct args; [|simpl in Hlen; lia].
    exists [], []. simpl. rewrite !app_nil_r. split; [done|]. split; [done|].
    by left. }
  destruct args as [|a rest].
  { exists [], []. simpl. rewrite !app_nil_r. split; [done|]. split; [done|].
    by left. }
  simpl in Hlen. simpl.
  destruct (strings.HasPrefix a "-X") eqn:Hpre.
  - assert (Hone : ∃ ordinary link,
                 buildArguments_loop rest b (l ++ [a])
                 = (b ++ ordinary, l ++ link)
                 ∧ Forall (λ a, ¬ is_link_flag a) ordinary
                 ∧ ((link = [] ∧ Forall (λ a, ¬ is_link_flag a) (a :: rest))
                    ∨ ∃ a link', link = a :: link' ∧ is_link_flag a)).
    { destruct (IH rest b (l ++ [a]) ltac:(lia)) as (o & k & E & F & _).
      exists o, (a :: k). rewrite E, <- app_assoc. split; [done|].
      split; [done|]. right. by exists a, k. }
    destruct rest as [|v rest'].
    + destruct (strings.Contains a "="); exact Hone.
    + destruct (decide (a = "-X")) as [->|Hne].
      * destruct (IH rest' b (l ++ ["-X"; v]) ltac:(simpl in Hlen; lia))
          as (o & k & E & F & _).
        exists o, ("-X" :: v :: k). rewrite E, <- app_assoc.
        split; [done|]. split; [done|]. right. by exists "-X", (v :: k).
      * destruct (strings.Contains a "="); exact Hone.
  - destruct (IH rest (b ++ [a]) l ltac:(lia)) as (o & k & E & F & Hk).
    exists (a :: o), k. rewrite E, <- app_assoc. split; [done|].
    assert (Hn : ¬ is_link_flag a).
    { unfold is_link_flag. by rewrite Hpre. }
    split; [by constructor|].
    destruct Hk as [[-> Hall]|Hk]; [left|by right].
    split; [done|]. by constructor.
Qed.

(** X3.  As soon as one extra flag starts with [-X], the token right
    before [-o] is the consolidated one and it starts with [-ldflags=-X];
    before it come [build] and ordinary flags only. *)
Theorem buildArguments_ldflags_token (c : Config) (dest : string) :
  Exists is_link_flag (extraFlags c) →
  ∃ (front : list string) (rest : string),
    buildArguments c dest
    = ["build"] ++ front ++ ["-ldflags=-X" +:+ rest]
      ++ ["-o"; if path.IsAbs dest then dest
                else path.Join [OutFolderRelativePath c; dest];
          MainInputFileRelativePath c]
    ∧ Forall (λ a, ¬ is_link_flag a) front.
Proof.
  intros Hex. unfold buildArguments, extraFlags in *.
  rewrite output_path_test.
  destruct (CompilingArguments c) as [args|]; simpl in Hex;
    [|by apply Exists_nil in Hex].
  destruct (buildArguments_loop_link_head (length args) args ["build"] []
              ltac:(done)) as (o & k & E & F & Hk).
  rewrite E. simpl.
  destruct Hk as [[_ Hall]|(a & k' & -> & Ha)].
  { exfalso. apply Exists_exists in Hex as (x & Hx & Hlink).
    rewrite Forall_forall in Hall. by apply (Hall x). }
  rewrite decide_True by (simpl; lia).
  destruct (prefix_split "-X" a Ha) as [a' ->].
  assert (Hjoin : ∃ r, strings.Join (("-X" +:+ a') :: k') " "
                       = "-X" +:+ r).
  { unfold strings.Join. destruct k' as [|b k'].
    - by exists a'.
    - exists (a' +:+ " " +:+ String.concat " " (b :: k')).
      change (String.concat " " (("-X" +:+ a') :: b :: k'))
        with (("-X" +:+ a') +:+ " " +:+ String.concat " " (b :: k')).
      by rewrite !string_app_assoc. }
  destruct Hjoin as [r ->].
  exists o, r. split; [|done]. simpl. by rewrite <- app_assoc.
Qed.

Lemma buildArguments_ldflags_token_witness :
  Exists is_link_flag
    (extraFlags (withCompilingArguments Sample.cfg
                   (Some ["-X main.a=1"; "-v"; "-X"; "main.b=2"])))
  ∧ ∃ (front : list string) (rest : string),
      buildArguments (withCompilingArguments Sample.cfg
                        (Some ["-X main.a=1"; "-v"; "-X"; "main.b=2"])) "app_tmp"
      = ["build"] ++ front ++ ["-ldflags=-X" +:+ rest]
        ++ ["-o"; "/project/out/app_tmp"; "main.go"]
      ∧ Forall (λ a, ¬ is_link_flag a) front.
Proof.
  assert (H : Exists is_link_flag
                (extraFlags (withCompilingArguments Sample.cfg
                               (Some ["-X main.a=1"; "-v"; "-X"; "main.b=2"])))).
  { apply Exists_cons_hd. reflexivity. }
  split; [exact H|].
  exact (buildArguments_ldflags_token _ "app_tmp" H).
Defined.

Example buildArguments_mixed_flags :
  buildArguments (withCompilingArguments Sample.cfg
                    (Some ["-X main.a=1"; "-v"; "-X"; "main.b=2"])) "app_tmp"
  = ["build"; "-v"; "-ldflags=-X main.a=1 -X main.b=2"; "-o";
     "/project/out/app_tmp"; "main.go"].
Proof. reflexivity. Qed.

(** ** More on the constructor and the accessors *)

(** what [New] returns, in full *)
Lemma New_char (c : loc) (σ : State) (cfg : Config) :
  configs σ !! c = Some cfg →
  New c σ
  = Some ({| config := c; active := None;
             outFileName := OutName cfg +:+ Extension cfg;
             outTempFileName := OutName cfg +:+ "_temp" +:+ Extension cfg;
             binarySizerLog := match Logger cfg with
                               | Some f => logSink f
                               | None => logNoop
                               end |},
          if decide (Timeout cfg = 0)
          then set_configs <[c := withTimeout cfg (5 * Second)]> σ
          else σ).
Proof.
  intros Hc. unfold New. rewrite Hc. simpl.
  destruct (decide (Timeout cfg = 0)); simpl.
  - rewrite lookup_insert_eq. simpl. by destruct (Logger cfg).
  - rewrite Hc. simpl. by destruct (Logger cfg).
Qed.

Lemma IsAbs_temp_name (name ext : string) :
  path.IsAbs (name +:+ "_temp" +:+ ext) = path.IsAbs name.
Proof. by destruct name. Qed.

(** X4.  On a builder fresh from [New], [BuildArguments] gives [build],
    flags, [-o], the default temp file and the entry file.  The default
    temp file is the output name, [_temp] and the extension, joined with
    the output directory, unless the output name is an absolute path: then
    it is used as it is and the output directory plays no part. *)
Theorem BuildArguments_after_New (c : loc) (σ : State) (cfg : Config) :
  configs σ !! c = Some cfg →
  ∃ h σ' flags,
    New c σ = Some (h, σ')
    ∧ BuildArguments h σ'
      = Some (["build"] ++ flags
              ++ ["-o";
                  if path.IsAbs (OutName cfg)
                  then OutName cfg +:+ "_temp" +:+ Extension cfg
                  else path.Join [OutFolderRelativePath cfg;
                                  OutName cfg +:+ "_temp" +:+ Extension cfg];
                  MainInputFileRelativePath cfg]).
Proof.
  intros Hc. rewrite (New_char c σ cfg Hc).
  assert (Hargs : ∀ cfg' : Config, ∃ flags,
            ∀ dest, buildArguments cfg' dest
                    = ["build"] ++ flags
                      ++ ["-o"; if path.IsAbs dest then dest
                                else path.Join [OutFolderRelativePath cfg'; dest];
                          MainInputFileRelativePath cfg']).
  { intros cfg'. unfold buildArguments.
    destruct (CompilingArguments cfg') as [args|].
    - destruct (buildArguments_loop_link_head (length args) args ["build"] []
                  ltac:(done)) as (o & k & E & _).
      rewrite E. simpl.
      destruct (decide (0 < length k)%nat).
      + exists (o ++ ["-ldflags=" +:+ strings.Join k " "]). intros dest.
        rewrite output_path_test. simpl. by rewrite <- !app_assoc.
      + exists o. intros dest. by rewrite output_path_test.
    - exists []. intros dest. by rewrite output_path_test. }
  destruct (decide (Timeout cfg = 0)).
  - destruct (Hargs (withTimeout cfg (5 * Second))) as [flags Hf].
    eexists _, _, flags. split; [reflexivity|].
    unfold BuildArguments. simpl. rewrite lookup_insert_eq. simpl.
    by rewrite Hf, IsAbs_temp_name.
  - destruct (Hargs cfg) as [flags Hf].
    eexists _, _, flags. split; [reflexivity|].
    unfold BuildArguments. simpl. rewrite Hc. simpl.
    by rewrite Hf, IsAbs_temp_name.
Qed.

Lemma BuildArguments_after_New_witness :
  configs (Sample.machine Sample.cfg) !! 0%nat = Some Sample.cfg
  ∧ ∃ h σ' flags,
      New 0%nat (Sample.machine Sample.cfg) = Some (h, σ')
      ∧ BuildArguments h σ'
        = Some (["build"] ++ flags
                ++ ["-o"; "/project/out/testapp_temp"; "main.go"]).
Proof.
  split; [reflexivity|].
  exact (BuildArguments_after_New 0%nat (Sample.machine Sample.cfg)
           Sample.cfg eq_refl).
Defined.

(** X5.  When the configuration has a timeout other than zero, a negative
    one included, [New] writes nothing: the state is the same afterwards,
    and the next compilation creates its context with that timeout. *)
Theorem New_keeps_timeout (c : loc) (σ : State) (cfg : Config) :
  configs σ !! c = Some cfg →
  Timeout cfg ≠ 0 →
  ∃ h,
    New c σ = Some (h, σ)
    ∧ config h = c ∧ active h = None
    ∧ (∃ comp h1 σ1,
          CompileProgram_begin h σ = Some (comp, Timeout cfg, h1, σ1))
    ∧ (∃ comp h1 σ1,
          CompileToMemory_begin h σ = Some (comp, Timeout cfg, h1, σ1)).
Proof.
  intros Hc Ht. rewrite (New_char c σ cfg Hc).
  rewrite decide_False by done.
  eexists. split; [reflexivity|]. simpl. split; [done|]. split; [done|].
  split.
  - unfold CompileProgram_begin. simpl. rewrite Hc. simpl.
    by eexists _, _, _.
  - unfold CompileToMemory_begin. simpl. rewrite Hc. simpl.
    by eexists _, _, _.
Qed.

Lemma New_keeps_timeout_witness :
  configs (Sample.machine (withTimeout Sample.cfg (-1))) !! 0%nat
  = Some (withTimeout Sample.cfg (-1))
  ∧ Timeout (withTimeout Sample.cfg (-1)) ≠ 0
  ∧ ∃ h,
      New 0%nat (Sample.machine (withTimeout Sample.cfg (-1)))
      = Some (h, Sample.machine (withTimeout Sample.cfg (-1)))
      ∧ config h = 0%nat ∧ active h = None
      ∧ (∃ comp h1 σ1,
            CompileProgram_begin h (Sample.machine (withTimeout Sample.cfg (-1)))
            = Some (comp, Timeout (withTimeout Sample.cfg (-1)), h1, σ1))
      ∧ (∃ comp h1 σ1,
            CompileToMemory_begin h (Sample.machine (withTimeout Sample.cfg (-1)))
            = Some (comp, Timeout (withTimeout Sample.cfg (-1)), h1, σ1)).
Proof.
  assert (Hne : Timeout (withTimeout Sample.cfg (-1)) ≠ 0) by (simpl; lia).
  split; [reflexivity|]. split; [exact Hne|].
  exact (New_keeps_timeout 0%nat (Sample.machine (withTimeout Sample.cfg (-1)))
           (withTimeout Sample.cfg (-1)) eq_refl Hne).
Defined.

(** X6.  [New] a second time on the same pointer changes nothing more and
    gives an equal builder: the default timeout is written once. *)
Theorem New_twice (c : loc) (σ σ' : State) (h : GoBuild) :
  New c σ = Some (h, σ') →
  New c σ' = Some (h, σ').
Proof.
  intros HNew.
  destruct (configs σ !! c) as [cfg|] eqn:Hc;
    [|by unfold New in HNew; rewrite Hc in HNew].
  rewrite (New_char c σ cfg Hc) in HNew.
  destruct (decide (Timeout cfg = 0)) as [Ht|Ht]; inversion HNew; subst.
  - erewrite New_char by (simpl; apply lookup_insert_eq).
    by simpl.
  - rewrite (New_char c σ' cfg Hc). by rewrite decide_False.
Qed.

Lemma New_twice_witness :
  ∃ h σ',
    New 0%nat (Sample.machine Sample.cfg) = Some (h, σ')
    ∧ New 0%nat σ' = Some (h, σ').
Proof.
  destruct (New 0%nat (Sample.machine Sample.cfg)) as [[h σ']|] eqn:HNew;
    [|by vm_compute in HNew].
  exists h, σ'. split; [reflexivity|].
  exact (New_twice 0%nat (Sample.machine Sample.cfg) σ' h HNew).
Defined.

(** X7.  The builder keeps the output file names it computed in [New] but
    reads everything else through the configuration pointer at each call.
    If the caller later stores another configuration behind the pointer,
    the file names stay those of the first one, while the directory of
    [FinalOutputPath], the entry file and the arguments follow the new
    one. *)
Theorem names_cached_folder_live (c : loc) (σ σ' : State) (h : GoBuild)
    (cfg cfg2 : Config) :
  configs σ !! c = Some cfg →
  New c σ = Some (h, σ') →
  let σ2 := set_configs <[c := cfg2]> σ' in
  MainOutputFileNameWithExtension h = OutName cfg +:+ Extension cfg
  ∧ FinalOutputPath h σ2
    = Some (path.Join [OutFolderRelativePath cfg2;
                       OutName cfg +:+ Extension cfg])
  ∧ GoBuild_MainInputFileRelativePath h σ2
    = Some (MainInputFileRelativePath cfg2)
  ∧ BuildArguments h σ2
    = Some (buildArguments cfg2 (OutName cfg +:+ "_temp" +:+ Extension cfg)).
Proof.
  intros Hc HNew σ2. rewrite (New_char c σ cfg Hc) in HNew.
  inversion HNew; subst h. clear HNew.
  unfold MainOutputFileNameWithExtension, FinalOutputPath,
    GoBuild_MainInputFileRelativePath, BuildArguments, σ2. simpl.
  rewrite lookup_insert_eq. by simpl.
Qed.

Lemma names_cached_folder_live_witness :
  ∃ h σ',
    configs (Sample.machine Sample.cfg) !! 0%nat = Some Sample.cfg
    ∧ New 0%nat (Sample.machine Sample.cfg) = Some (h, σ')
    ∧ FinalOutputPath h
        (set_configs <[0%nat := mkConfig "/other" "tinygo" "cmd/main.go" "renamed"
                                  ".wasm" None "web/public" None None 1 []]> σ')
      = Some "web/public/testapp".
Proof.
  destruct (New 0%nat (Sample.machine Sample.cfg)) as [[h σ']|] eqn:HNew;
    [|by vm_compute in HNew].
  exists h, σ'. split; [reflexivity|]. split; [reflexivity|].
  exact (proj1 (proj2 (names_cached_folder_live 0%nat
           (Sample.machine Sample.cfg) σ' h Sample.cfg
           (mkConfig "/other" "tinygo" "cmd/main.go" "renamed" ".wasm"
              None "web/public" None None 1 []) eq_refl HNew))).
Defined.

(** ** More on the binary size formatter *)

Lemma string_length_app (a b : string) :
  String.length (a +:+ b) = (String.length a + String.length b)%nat.
Proof.
  induction a as [|x a IH]; [done|].
  rewrite string_app_cons. simpl. by rewrite IH.
Qed.

(** a number printed with one decimal reads [0.0] only if it is zero *)
Lemma Sprintf_1f_zero (num den : Z) (unit : string) :
  0 < den → 0 ≤ num → String.length unit = 2%nat →
  Sprintf_1f num den +:+ String " " unit = "0.0 KB" →
  round_half_even (10 * num) den = 0.
Proof.
  intros Hden Hnum Hunit. unfold Sprintf_1f.
  set (t := round_half_even (10 * num) den).
  assert (Ht : 0 ≤ t).
  { pose proof (round_half_even_lower (10 * num) den Hden) as Hl.
    assert (0 ≤ 10 * num / den) by (apply Z.div_pos; lia). unfold t. lia. }
  assert (Hmod : 0 ≤ t mod 10 < 10) by (apply Z.mod_pos_bound; lia).
  rewrite (pretty_digit (t mod 10) Hmod), !string_app_assoc.
  destruct (pretty (t / 10)) as [|c0 s0] eqn:Hq; [done|].
  rewrite string_app_cons. intros [= -> Hrest].
  destruct s0 as [|c1 s1].
  - assert (Hq0 : t / 10 = 0).
    { apply (inj pretty). by rewrite Hq. }
    rewrite string_app_nil_l, !string_app_cons in Hrest.
    injection Hrest as Hd _.
    assert (Hd0 : t mod 10 = 0).
    { assert (Hcases : t mod 10 = 0 ∨ t mod 10 = 1 ∨ t mod 10 = 2
                       ∨ t mod 10 = 3 ∨ t mod 10 = 4 ∨ t mod 10 = 5
                       ∨ t mod 10 = 6 ∨ t mod 10 = 7 ∨ t mod 10 = 8
                       ∨ t mod 10 = 9) by lia.
      destruct Hcases as [H|Hcases]; [done|].
      repeat (destruct Hcases as [H|Hcases];
              [rewrite H in Hd; discriminate Hd|]).
      rewrite Hcases in Hd; discriminate Hd. }
    pose proof (Z.div_mod t 10 ltac:(lia)). lia.
  - rewrite string_app_cons in Hrest. injection Hrest as _ Hrest.
    apply (f_equal String.length) in Hrest.
    rewrite !string_length_app in Hrest. simpl in Hrest. lia.
Qed.

(** X8.  The formatter prints [0.0 KB] exactly for the sizes from 0 to 51
    bytes: an empty binary reads the same as a binary of up to 51 bytes, and
    every binary of 52 bytes or more reads otherwise. *)
Theorem sizeString_zero_reading (n : nat) :
  sizeString (Z.of_nat n) = "0.0 KB" ↔ (n ≤ 51)%nat.
Proof.
  set (z := Z.of_nat n). assert (Hz : 0 ≤ z) by lia.
  assert (Hn : (n ≤ 51)%nat ↔ z ≤ 51) by lia. rewrite Hn.
  clearbody z. clear n Hn. unfold sizeString.
  destruct (decide (z = 0)) as [->|Hnz];
    [split; [intros _; lia | intros _; reflexivity]|].
  pose proof (float64_of_int_cases z Hz) as Hf.
  set (size := float64_of_int z) in *.
  assert (HGB : GB < 2 ^ 53) by done.
  assert (HMB : MB < GB) by done.
  assert (Hbig : ∀ unit name,
            0 < unit → unit ≤ size → String.length name = 2%nat →
            Sprintf_1f size unit +:+ String " " name ≠ "0.0 KB").
  { intros unit name Hu Hle Hlen Heq.
    apply Sprintf_1f_zero in Heq; [|done|lia|done].
    pose proof (round_half_even_lower (10 * size) unit Hu) as Hl.
    assert (10 ≤ 10 * size / unit).
    { apply Z.div_le_lower_bound; lia. }
    lia. }
  destruct (decide (GB ≤ size)) as [Hg|Hg].
  { split; [intros H; by apply Hbig in H|].
    intros Hle. unfold GB in *. lia. }
  destruct (decide (MB ≤ size)) as [Hm|Hm].
  { split; [intros H; by apply Hbig in H|].
    intros Hle. unfold MB, GB in *. lia. }
  assert (Hsz : size = z) by (unfold MB, GB in *; lia).
  rewrite Hsz. split.
  - intros Heq. apply Sprintf_1f_zero in Heq; [|done|lia|done].
    pose proof (round_half_even_near (10 * z) KB ltac:(done)) as Hnear.
    rewrite Heq in Hnear. unfold KB in Hnear. lia.
  - intros Hle. unfold Sprintf_1f, round_half_even, KB.
    rewrite (Z.div_small (10 * z) 1024) by lia.
    rewrite (Z.mod_small (10 * z) 1024) by lia.
    assert (H2 : (2 * (10 * z) <? 1024) = true) by (apply Z.ltb_lt; lia).
    rewrite H2. reflexivity.
Qed.

(** ** More on the orchestrator *)

Section orchestrator_facts.

Variable Environ : list string.
Variable Duration_String : Duration → string.
Variable run : exec.Cmd → Duration → gmap string (list byte) → Outcome.

(** what [compileSync] does to the job: it stores the command *)
Lemma compileSync_comps (h : GoBuild) (timeout : Duration) (comp : loc)
    (σ σ' : State) (res : option error) :
  compileSync Environ run h timeout comp σ = Some (res, σ') →
  ∃ job c,
    comps σ !! comp = Some job
    ∧ comps σ' = <[comp := {| cmd := Some c; tempFile := tempFile job;
                              startTime := startTime job;
                              memoryBytes := memoryBytes job |}]> (comps σ).
Proof.
  unfold compileSync. intros H.
  destruct (configs σ !! config h) as [cfg|]; [|done].
  destruct (comps σ !! comp) as [job|] eqn:Hjob; [|done].
  simpl in H. unfold launch in H. simpl in H.
  eexists job, _. split; [done|].
  match type of H with
  | context [out_err ?r] => destruct (out_err r)
  end.
  - inversion H; subst. reflexivity.
  - unfold renameOutputFile in H. simpl in H.
    match type of H with
    | context [match ?m !! ?k with _ => _ end] => destruct (m !! k)
    end; inversion H; subst; reflexivity.
Qed.

(** a step changes neither what the builder was made with nor any
    configuration, forgets no job and takes back no cancellation *)
Lemma step_frame (a : action) (h h' : GoBuild) (σ σ' : State) :
  step Environ Duration_String run a (h, σ) = Some (h', σ') →
  (config h', outFileName h', outTempFileName h', binarySizerLog h')
  = (config h, outFileName h, outTempFileName h, binarySizerLog h)
  ∧ configs σ' = configs σ
  ∧ dom (comps σ) ⊆ dom (comps σ')
  ∧ cancelled σ ⊆ cancelled σ'.
Proof.
  intros Hstep. destruct a; simpl in Hstep.
  - unfold CompileProgram_begin, cancelActive, installJob in Hstep.
    destruct (configs σ !! config h) as [cfg|]; [|done]. simpl in Hstep.
    destruct (active h) as [old|]; simpl in Hstep; inversion Hstep; subst;
      simpl; rewrite dom_insert_L; repeat split; try done; set_solver.
  - destruct (compileSync Environ run h timeout comp σ) as [[res σ1]|] eqn:Hs;
      [|done].
    simpl in Hstep. inversion Hstep; subst.
    apply compileSync_frame in Hs as (Hdom & Hcan & Hcfg).
    by rewrite Hdom, Hcan, Hcfg.
  - destruct (configs σ !! config h) as [cfg|]; [|done]. simpl in Hstep.
    destruct (Callback cfg); [|done]. simpl in Hstep.
    by inversion Hstep; subst.
  - unfold CompileToMemory_begin, cancelActive, installJob in Hstep.
    destruct (configs σ !! config h) as [cfg|]; [|done]. simpl in Hstep.
    destruct (active h) as [old|]; simpl in Hstep; inversion Hstep; subst;
      simpl; rewrite dom_insert_L; repeat split; try done; set_solver.
  - destruct (CompileToMemory_run Environ run timeout h σ) as [[r σ1]|] eqn:Hs;
      [|done].
    simpl in Hstep. inversion Hstep; subst.
    apply CompileToMemory_run_frame in Hs as (Hcomps & Hcan & Hcfg).
    by rewrite Hcomps, Hcan, Hcfg.
  - inversion Hstep; subst. unfold clearJob.
    by destruct (decide (active h = Some comp)).
  - destruct (CompileToMemory_result Duration_String r h σ)
      as [[[bytes err] σ1]|] eqn:Hs; [|done].
    simpl in Hstep. inversion Hstep; subst.
    apply CompileToMemory_result_frame in Hs as (Hcomps & Hcan & Hcfg).
    by rewrite Hcomps, Hcan, Hcfg.
  - unfold Cancel in Hstep.
    destruct (active h) as [old|]; inversion Hstep; subst; simpl;
      repeat split; try done. set_solver.
  - by inversion Hstep; subst.
Qed.

Lemma execute_frame (acts : list action) (h h' : GoBuild) (σ σ' : State) :
  execute Environ Duration_String run acts (h, σ) = Some (h', σ') →
  (config h', outFileName h', outTempFileName h', binarySizerLog h')
  = (config h, outFileName h, outTempFileName h, binarySizerLog h)
  ∧ configs σ' = configs σ
  ∧ dom (comps σ) ⊆ dom (comps σ')
  ∧ cancelled σ ⊆ cancelled σ'.
Proof.
  revert h σ. induction acts as [|a acts IH]; intros h σ Hex.
  - by inversion Hex; subst.
  - change (step Environ Duration_String run a (h, σ)
            ≫= execute Environ Duration_String run acts = Some (h', σ')) in Hex.
    destruct (step Environ Duration_String run a (h, σ)) as [[h1 σ1]|] eqn:Hs;
      [|done].
    simpl in Hex. apply step_frame in Hs as (Hh & Hc & Hd & Hk).
    apply IH in Hex as (Hh' & Hc' & Hd' & Hk').
    rewrite Hh', Hh, Hc', Hc. repeat split; try done; set_solver.
Qed.

(** X16.  Over any interleaving of steps the builder keeps the
    configuration pointer and the file names it was made with, no
    configuration is written, no job is forgotten and no cancellation is
    taken back. *)
Theorem execute_keeps (acts : list action) (h h' : GoBuild) (σ σ' : State) :
  execute Environ Duration_String run acts (h, σ) = Some (h', σ') →
  (config h', outFileName h', outTempFileName h', binarySizerLog h')
  = (config h, outFileName h, outTempFileName h, binarySizerLog h)
  ∧ configs σ' = configs σ
  ∧ dom (comps σ) ⊆ dom (comps σ')
  ∧ cancelled σ ⊆ cancelled σ'.
Proof. apply execute_frame. Qed.

Lemma disk_only_step (D : gset loc) (a : action) (s s' : GoBuild * State) :
  disk_only D s →
  step Environ Duration_String run a s = Some s' →
  disk_only D s'.
Proof.
  destruct s as [h σ], s' as [h' σ']. intros (I1 & I2 & I3) Hstep.
  simpl in I1, I2, I3.
  assert (Hbegin : ∀ tempFileName,
            disk_only D (let '(h1, σ1) := cancelActive h σ in
                         let '(comp, h2, σ2) := installJob tempFileName h1 σ1 in
                         (h2, σ2))).
  { intros tempFileName. unfold cancelActive, installJob.
    assert (Hfresh : fresh (dom (comps σ)) ∉ dom (comps σ)) by apply is_fresh.
    assert (Hgoal : ∀ h1 σ1,
              comps σ1 = comps σ → clock σ1 = clock σ →
              disk_only D
                (set_active (Some (fresh (dom (comps σ1)))) h1,
                 set_comps <[fresh (dom (comps σ1)) :=
                   {| cmd := None; tempFile := tempFileName;
                      startTime := clock σ1; memoryBytes := [] |}]> σ1)).
    { intros h1 σ1 Hcs _. unfold disk_only. simpl. rewrite Hcs.
      split; [|split].
      - intros j [= <-]. rewrite dom_insert_L. split; [set_solver|set_solver].
      - rewrite dom_insert_L. set_solver.
      - intros k c Hk HkD.
        destruct (decide (k = fresh (dom (comps σ)))) as [->|Hne].
        + rewrite lookup_insert_eq in Hk. by inversion Hk.
        + rewrite lookup_insert_ne in Hk by done. by eapply I3. }
    destruct (active h); by apply Hgoal. }
  destruct a; simpl in Hstep.
  - unfold CompileProgram_begin in Hstep.
    destruct (configs σ !! config h) as [cfg|]; [|done]. simpl in Hstep.
    specialize (Hbegin (OutName cfg +:+ "_temp_"
                        +:+ pretty (clock (cancelActive h σ).2)
                        +:+ Extension cfg)).
    destruct (cancelActive h σ) as [h1 σ1]. simpl in *.
    by inversion Hstep; subst.
  - destruct (compileSync Environ run h timeout comp σ) as [[res σ1]|] eqn:Hs;
      [|done].
    simpl in Hstep. inversion Hstep; subst.
    apply compileSync_comps in Hs as (job & c & Hjob & Hcomps).
    unfold disk_only. simpl. rewrite Hcomps.
    rewrite dom_insert_lookup_L by (by eexists).
    split; [done|]. split; [done|].
    intros k c' Hk HkD.
    destruct (decide (k = comp)) as [->|Hne].
    + rewrite lookup_insert_eq in Hk. inversion Hk; subst. simpl.
      by eapply I3.
    + rewrite lookup_insert_ne in Hk by done. by eapply I3.
  - destruct (configs σ !! config h) as [cfg|]; [|done]. simpl in Hstep.
    destruct (Callback cfg); [|done]. simpl in Hstep.
    by inversion Hstep; subst.
  - unfold CompileToMemory_begin in Hstep.
    destruct (configs σ !! config h) as [cfg|]; [|done]. simpl in Hstep.
    specialize (Hbegin "memory").
    destruct (cancelActive h σ) as [h1 σ1]. simpl in *.
    by inversion Hstep; subst.
  - destruct (CompileToMemory_run Environ run timeout h σ) as [[r σ1]|] eqn:Hs;
      [|done].
    simpl in Hstep. inversion Hstep; subst.
    apply CompileToMemory_run_frame in Hs as (Hcomps & _ & _).
    unfold disk_only. simpl. by rewrite Hcomps.
  - inversion Hstep; subst. unfold clearJob.
    destruct (decide (active h = Some comp)); [|done].
    unfold disk_only. simpl. by repeat split.
  - destruct (CompileToMemory_result Duration_String r h σ)
      as [[[bytes err] σ1]|] eqn:Hs; [|done].
    simpl in Hstep. inversion Hstep; subst.
    apply CompileToMemory_result_frame in Hs as (Hcomps & _ & _).
    unfold disk_only. simpl. by rewrite Hcomps.
  - unfold Cancel in Hstep.
    destruct (active h) as [old|] eqn:Hact; inversion Hstep; subst;
      unfold disk_only; simpl; [by repeat split|].
    rewrite Hact. by repeat split.
  - by inversion Hstep; subst.
Qed.

Lemma disk_only_execute (D : gset loc) (acts : list action)
    (s s' : GoBuild * State) :
  disk_only D s →
  execute Environ Duration_String run acts s = Some s' →
  disk_only D s'.
Proof.
  revert s. induction acts as [|a acts IH]; intros s HI Hex.
  - by inversion Hex; subst.
  - change (step Environ Duration_String run a s
            ≫= execute Environ Duration_String run acts = Some s') in Hex.
    destruct (step Environ Duration_String run a s) as [s1|] eqn:Hs; [|done].
    simpl in Hex. eapply IH; [|exact Hex]. by eapply disk_only_step.
Qed.

(** X9.  On a builder made by [New], after any interleaving of steps of
    its operations, [getBinaryBytes] returns what the file at the final
    output path holds (nil when there is no such file), never bytes of a
    compilation to memory, and [BinarySize] prints the size of that
    file. *)
Theorem getBinaryBytes_reads_disk (c : loc) (σ0 σ0' : State) (h0 : GoBuild)
    (acts : list action) (h : GoBuild) (σ : State) :
  New c σ0 = Some (h0, σ0') →
  execute Environ Duration_String run acts (h0, σ0') = Some (h, σ) →
  ∃ cfg,
    configs σ !! config h = Some cfg
    ∧ getBinaryBytes h σ
      = Some (default [] (files σ !! path.Join [OutFolderRelativePath cfg;
                                                outFileName h]))
    ∧ GoBuild_BinarySize h σ
      = Some (sizeString
                (Z.of_nat (length (default []
                   (files σ !! path.Join [OutFolderRelativePath cfg;
                                          outFileName h]))))).
Proof.
  intros HNew Hex.
  assert (Hinit : disk_only (dom (comps σ0)) (h0, σ0')
                  ∧ is_Some (configs σ0' !! config h0)).
  { destruct (configs σ0 !! c) as [cfg0|] eqn:Hc;
      [|by unfold New in HNew; rewrite Hc in HNew].
    rewrite (New_char c σ0 cfg0 Hc) in HNew.
    assert (Hold : ∀ (k : loc) (job : compilation),
              comps σ0 !! k = Some job → k ∉ dom (comps σ0) →
              memoryBytes job = []).
    { intros k job Hk HkD. exfalso. apply HkD. apply elem_of_dom. eauto. }
    destruct (decide (Timeout cfg0 = 0)); inversion HNew; subst;
      unfold disk_only; simpl.
    - split; [by repeat split|]. rewrite lookup_insert_eq. by eexists.
    - split; [by repeat split|]. by eexists. }
  destruct Hinit as [Hinit [cfg Hcfg]].
  pose proof (disk_only_execute _ acts _ _ Hinit Hex) as (I1 & _ & I3).
  simpl in I1, I3.
  apply execute_frame in Hex as (Hh & Hcfgs & _ & _).
  injection Hh as Hch Hn _ _.
  exists cfg. rewrite Hch, Hcfgs. split; [done|].
  assert (Hget : getBinaryBytes h σ
                 = Some (default [] (files σ !! path.Join
                           [OutFolderRelativePath cfg; outFileName h]))).
  { unfold getBinaryBytes, FinalOutputPath, ReadFile.
    rewrite Hch, Hcfgs, Hcfg. simpl.
    destruct (active h) as [j|] eqn:Hact; [|done].
    destruct (I1 j eq_refl) as [Hin HnD].
    apply elem_of_dom in Hin as [job Hjob]. rewrite Hjob. simpl.
    rewrite (I3 j job Hjob HnD). simpl. done. }
  split; [exact Hget|].
  unfold GoBuild_BinarySize, BinarySize. simpl. by rewrite Hget.
Qed.

End orchestrator_facts.

Lemma getBinaryBytes_reads_disk_witness :
  ∃ h0 σ0' h σ cfg,
    New 0%nat (Sample.machine Sample.cfg) = Some (h0, σ0')
    ∧ execute Sample.Environ Sample.Duration_String Sample.compiler_ok
        [ActMemoryBegin; ActMemoryRun 5000000000; ActProgramBegin]
        (h0, σ0') = Some (h, σ)
    ∧ active h = Some 1%nat
    ∧ configs σ !! config h = Some cfg
    ∧ getBinaryBytes h σ
      = Some (default [] (files σ !! path.Join [OutFolderRelativePath cfg;
                                                outFileName h])).
Proof.
  destruct (New 0%nat (Sample.machine Sample.cfg)) as [[h0 σ0']|] eqn:HNew;
    [|by vm_compute in HNew].
  destruct (execute Sample.Environ Sample.Duration_String Sample.compiler_ok
              [ActMemoryBegin; ActMemoryRun 5000000000; ActProgramBegin]
              (h0, σ0')) as [[h σ]|] eqn:Hex.
  - destruct (getBinaryBytes_reads_disk Sample.Environ Sample.Duration_String
                Sample.compiler_ok 0%nat (Sample.machine Sample.cfg) σ0' h0
                _ h σ HNew Hex) as (cfg & Hcfg & Hget & _).
    exists h0, σ0', h, σ, cfg. split; [reflexivity|]. split; [exact Hex|].
    split; [|split; [exact Hcfg | exact Hget]].
    vm_compute in HNew. inversion HNew; subst.
    vm_compute in Hex. by inversion Hex.
  - vm_compute in HNew. inversion HNew; subst. by vm_compute in Hex.
Defined.

Lemma execute_keeps_witness :
  ∃ h0 σ0' h σ,
    New 0%nat (Sample.machine Sample.cfg) = Some (h0, σ0')
    ∧ execute Sample.Environ Sample.Duration_String Sample.compiler_ok
        [ActProgramBegin; ActCancel; ActCompileSync 5000000000 0%nat;
         ActEnd 0%nat] (h0, σ0') = Some (h, σ)
    ∧ configs σ = configs σ0'
    ∧ cancelled σ0' ⊆ cancelled σ.
Proof.
  destruct (New 0%nat (Sample.machine Sample.cfg)) as [[h0 σ0']|] eqn:HNew;
    [|by vm_compute in HNew].
  destruct (execute Sample.Environ Sample.Duration_String Sample.compiler_ok
              [ActProgramBegin; ActCancel; ActCompileSync 5000000000 0%nat;
               ActEnd 0%nat] (h0, σ0')) as [[h σ]|] eqn:Hex.
  - destruct (execute_keeps Sample.Environ Sample.Duration_String
                Sample.compiler_ok _ h0 h σ0' σ Hex) as (_ & Hc & _ & Hk).
    exists h0, σ0', h, σ. split; [reflexivity|]. split; [exact Hex|].
    split; [exact Hc | exact Hk].
  - vm_compute in HNew. inversion HNew; subst. by vm_compute in Hex.
Defined.

Section compilation_facts.

Variable Environ : list string.
Variable Duration_String : Duration → string.
Variable run : exec.Cmd → Duration → gmap string (list byte) → Outcome.




(** X11.  The goroutine of an asynchronous [CompileProgram] runs
    [compileSync], then calls the callback once with its result, whether
    or not the job has been superseded or cancelled in the meantime, and
    then clears the job reference if it still is this job. *)
Theorem CompileProgram_goroutine_reports (timeout : Duration) (comp cb : loc)
    (h : GoBuild) (σ : State) (cfg : Config) (job : compilation) :
  configs σ !! config h = Some cfg →
  Callback cfg = Some cb →
  comps σ !! comp = Some job →
  ∃ err σ1 h' σ',
    compileSync Environ run h timeout comp σ = Some (err, σ1)
    ∧ CompileProgram_goroutine Environ run timeout comp h σ = Some (h', σ')
    ∧ trace σ' = trace σ1 ++ [CalledBack cb err]
    ∧ (files σ', comps σ', cancelled σ')
      = (files σ1, comps σ1, cancelled σ1)
    ∧ active h' = if decide (active h = Some comp) then None else active h.
Proof.
  intros Hcfg Hcb Hjob.
  destruct (compileSync_outcome Environ run h timeout comp σ cfg job Hcfg Hjob)
    as (err & σ1 & E & _).
  pose proof (compileSync_frame Environ run h timeout comp σ σ1 err E)
    as (_ & _ & Hcfgs).
  unfold CompileProgram_goroutine. rewrite E. simpl.
  rewrite Hcfgs, Hcfg. simpl. rewrite Hcb. simpl.
  eexists err, σ1, _, _. split; [done|]. split; [reflexivity|]. simpl.
  split; [done|]. split; [done|].
  unfold clearJob. by destruct (decide (active h = Some comp)).
Qed.

End compilation_facts.



Lemma CompileProgram_goroutine_reports_witness :
  configs (Sample.machine_with_job SampleAsync.cfg) !! config Sample.builder
  = Some SampleAsync.cfg
  ∧ Callback SampleAsync.cfg = Some 7%nat
  ∧ comps (Sample.machine_with_job SampleAsync.cfg) !! 0%nat = Some Sample.job
  ∧ ∃ err σ1 h' σ',
      compileSync Sample.Environ Sample.compiler_rejects Sample.builder
        2000000000 0%nat (Sample.machine_with_job SampleAsync.cfg)
      = Some (err, σ1)
      ∧ CompileProgram_goroutine Sample.Environ Sample.compiler_rejects
          2000000000 0%nat Sample.builder
          (Sample.machine_with_job SampleAsync.cfg) = Some (h', σ')
      ∧ trace σ' = trace σ1 ++ [CalledBack 7%nat err]
      ∧ active h' = None.
Proof.
  split; [reflexivity|]. split; [reflexivity|]. split; [reflexivity|].
  destruct (CompileProgram_goroutine_reports Sample.Environ
              Sample.compiler_rejects 2000000000 0%nat 7%nat Sample.builder
              (Sample.machine_with_job SampleAsync.cfg) SampleAsync.cfg
              Sample.job eq_refl eq_refl eq_refl)
    as (err & σ1 & h' & σ' & E & G & Ht & _ & Hact).
  exists err, σ1, h', σ'. split; [exact E|]. split; [exact G|].
  split; [exact Ht|exact Hact].
Defined.

(** ** More on compilation to memory *)

Section memory_facts.

Variable Environ : list string.
Variable Duration_String : Duration → string.
Variable run : exec.Cmd → Duration → gmap string (list byte) → Outcome.

(** X12.  [CompileToMemory] returns no error exactly when the context has
    not passed its deadline and the run reported no error; then the bytes
    are the standard output of the child.  With an error the bytes are nil.
    A passed deadline wins over everything: even a run that reported no
    error gives the timeout error and nil.  Any other failure wraps the
    error of the run, which can be unwrapped again. *)
Theorem CompileToMemory_result_shape (h : GoBuild) (σ : State) (cfg : Config) :
  configs σ !! config h = Some cfg →
  let r := run (memoryCmd Environ cfg) (Timeout cfg) (files σ) in
  ∃ bytes err h' σ',
    CompileToMemory Environ Duration_String run h σ = Some (bytes, err, h', σ')
    ∧ (err = None
       ↔ out_ctxErr r ≠ Some DeadlineExceeded ∧ out_err r = None)
    ∧ match err with
      | None => bytes = out_stdout r
      | Some e =>
          bytes = []
          ∧ (if decide (out_ctxErr r = Some DeadlineExceeded)
             then e = errorString ("compilation timed out after "
                                   +:+ Duration_String (Timeout cfg))
             else ∃ msg cause, e = wrapError msg cause
                               ∧ out_err r = Some cause)
      end.
Proof.
  intros Hcfg r.
  destruct (CompileToMemory_outcome Environ Duration_String run h σ cfg Hcfg)
    as (h' & σ' & E & _).
  fold r in E. eexists _, _, h', σ'. split; [exact E|].
  destruct (decide (out_ctxErr r = Some DeadlineExceeded)) as [Hd|Hd].
  - split; [split; [done|by intros [? _]]|]. by split.
  - destruct (out_err r) as [cause|] eqn:Herr.
    + split; [split; [done|by intros [_ ?]]|]. split; [done|].
      by eexists _, _.
    + by split.
Qed.


End memory_facts.

Lemma CompileToMemory_result_shape_witness :
  configs (Sample.machine SampleAsync.cfg) !! config (set_active None Sample.builder)
  = Some SampleAsync.cfg
  ∧ ∃ h' σ',
      CompileToMemory Sample.Environ Sample.Duration_String
        SampleAsync.compiler_late (set_active None Sample.builder)
        (Sample.machine SampleAsync.cfg)
      = Some ([], Some (errorString "compilation timed out after 2s"), h', σ').
Proof.
  split; [reflexivity|].
  destruct (CompileToMemory_result_shape Sample.Environ Sample.Duration_String
              SampleAsync.compiler_late (set_active None Sample.builder)
              (Sample.machine SampleAsync.cfg) SampleAsync.cfg eq_refl)
    as (bytes & err & h' & σ' & E & _ & Hshape).
  exists h', σ'. rewrite E.
  destruct err as [e|].
  - destruct Hshape as [-> He]. simpl in He. by rewrite He.
  - exfalso. vm_compute in E. discriminate E.
Defined.


(** ** Temp file names *)

Lemma string_app_inv_r (a b e : string) : a +:+ e = b +:+ e → a = b.
Proof.
  revert b. induction a as [|x a IH]; intros b H.
  - destruct b as [|y b]; [done|].
    apply (f_equal String.length) in H.
    rewrite string_app_nil_l, string_app_cons in H. simpl in H.
    rewrite string_length_app in H. lia.
  - destruct b as [|y b].
    + apply (f_equal String.length) in H.
      rewrite string_app_nil_l, string_app_cons in H. simpl in H.
      rewrite string_length_app in H. lia.
    + rewrite !string_app_cons in H. injection H as -> H.
      by rewrite (IH b H).
Qed.

(** X15.  A disk compilation names its temp file after the output name,
    [_temp_], the clock reading in nanoseconds and the extension; the job
    starts without command and without bytes.  Two compilations under the
    same output name and extension get the same temp file name exactly when
    they read the same clock value. *)
Theorem temp_file_names (h1 h2 : GoBuild) (σ1 σ2 : State) (cfg1 cfg2 : Config) :
  configs σ1 !! config h1 = Some cfg1 →
  configs σ2 !! config h2 = Some cfg2 →
  OutName cfg1 = OutName cfg2 →
  Extension cfg1 = Extension cfg2 →
  ∃ comp1 t1 h1' σ1' job1 comp2 t2 h2' σ2' job2,
    CompileProgram_begin h1 σ1 = Some (comp1, t1, h1', σ1')
    ∧ CompileProgram_begin h2 σ2 = Some (comp2, t2, h2', σ2')
    ∧ comps σ1' !! comp1 = Some job1
    ∧ comps σ2' !! comp2 = Some job2
    ∧ tempFile job1
      = OutName cfg1 +:+ "_temp_" +:+ pretty (clock σ1) +:+ Extension cfg1
    ∧ (cmd job1, startTime job1, memoryBytes job1) = (None, clock σ1, [])
    ∧ (tempFile job1 = tempFile job2 ↔ clock σ1 = clock σ2).
Proof.
  intros Hc1 Hc2 Hname Hext.
  assert (Hbegin : ∀ h σ cfg,
            configs σ !! config h = Some cfg →
            ∃ comp h' σ',
              CompileProgram_begin h σ = Some (comp, Timeout cfg, h', σ')
              ∧ comps σ' !! comp
                = Some {| cmd := None;
                          tempFile := OutName cfg +:+ "_temp_"
                                      +:+ pretty (clock σ) +:+ Extension cfg;
                          startTime := clock σ; memoryBytes := [] |}).
  { intros h σ cfg Hc. unfold CompileProgram_begin, cancelActive, installJob.
    rewrite Hc. simpl.
    destruct (active h); simpl; eexists _, _, _;
      (split; [reflexivity|]); simpl; apply lookup_insert_eq. }
  destruct (Hbegin h1 σ1 cfg1 Hc1) as (comp1 & h1' & σ1' & E1 & J1).
  destruct (Hbegin h2 σ2 cfg2 Hc2) as (comp2 & h2' & σ2' & E2 & J2).
  eexists comp1, _, h1', σ1', _, comp2, _, h2', σ2', _.
  split; [exact E1|]. split; [exact E2|]. split; [exact J1|].
  split; [exact J2|]. simpl. split; [done|]. split; [done|].
  rewrite <- Hname, <- Hext. split.
  - intros H. apply (inj (String.app (OutName cfg1))) in H.
    apply (inj (String.app "_temp_")) in H.
    apply string_app_inv_r in H. by apply (inj pretty) in H.
  - by intros ->.
Qed.

Lemma temp_file_names_witness :
  configs (Sample.machine Sample.cfg) !! config (set_active None Sample.builder)
  = Some Sample.cfg
  ∧ configs (set_clock (λ t, t + 1) (Sample.machine Sample.cfg))
      !! config (set_active None Sample.builder) = Some Sample.cfg
  ∧ ∃ comp1 t1 h1' σ1' job1 comp2 t2 h2' σ2' job2,
      CompileProgram_begin (set_active None Sample.builder)
        (Sample.machine Sample.cfg) = Some (comp1, t1, h1', σ1')
      ∧ CompileProgram_begin (set_active None Sample.builder)
          (set_clock (λ t, t + 1) (Sample.machine Sample.cfg))
        = Some (comp2, t2, h2', σ2')
      ∧ comps σ1' !! comp1 = Some job1
      ∧ comps σ2' !! comp2 = Some job2
      ∧ tempFile job1 = "testapp_temp_1700000000000000000"
      ∧ tempFile job1 ≠ tempFile job2.
Proof.
  split; [reflexivity|]. split; [reflexivity|].
  destruct (temp_file_names (set_active None Sample.builder)
              (set_active None Sample.builder)
              (Sample.machine Sample.cfg)
              (set_clock (λ t, t + 1) (Sample.machine Sample.cfg))
              Sample.cfg Sample.cfg eq_refl eq_refl eq_refl eq_refl)
    as (comp1 & t1 & h1' & σ1' & job1 & comp2 & t2 & h2' & σ2' & job2
        & E1 & E2 & J1 & J2 & Hn & _ & Hiff).
  exists comp1, t1, h1', σ1', job1, comp2, t2, h2', σ2', job2.
  split; [exact E1|]. split; [exact E2|]. split; [exact J1|].
  split; [exact J2|]. split; [exact Hn|].
  intros Heq. apply Hiff in Heq. simpl in Heq. lia.
Defined.
